(** * motionEye request handlers (handlers.py): a shallow embedding

    The handlers of [src/handlers.py] are written here as functions over an
    explicit world (configuration store, time-lapse tracker, trace of the
    calls made to the collaborators and to the response object).  Code that
    can raise returns a [result]; callbacks handed to the remote client are
    functions that the event loop applies later.  Request bodies are taken
    as decoded by [json.loads]; calls of [logging.debug] leave no mark in
    the trace. *)

From Stdlib Require Import ZArith List String Ascii Bool Lia Permutation.
From Stdlib Require Import DecimalString Sorted.
Import ListNotations.
Open Scope string_scope.
Open Scope Z_scope.

(** ** Python values and dictionaries *)

Module Py.

(** The values that configuration records and JSON payloads carry. *)
Inductive pyval : Type :=
| VNone
| VBool (b : bool)
| VInt (z : Z)
| VStr (s : string)
| VList (l : list string).

(** Python truth value testing. *)
Definition truthy (v : pyval) : bool :=
  match v with
  | VNone => false
  | VBool b => b
  | VInt z => negb (z =? 0)
  | VStr s => negb (s =? "")%string
  | VList l => match l with [] => false | _ :: _ => true end
  end.

(** Python [==]: booleans are integers, the other types only equal
    themselves. *)
Definition py_eq (a b : pyval) : bool :=
  match a, b with
  | VNone, VNone => true
  | VBool x, VBool y => Bool.eqb x y
  | VBool x, VInt y => Z.b2z x =? y
  | VInt x, VBool y => x =? Z.b2z y
  | VInt x, VInt y => x =? y
  | VStr x, VStr y => (x =? y)%string
  | VList x, VList y => if list_eq_dec string_dec x y then true else false
  | _, _ => false
  end.

(** Python [a or b]. *)
Definition py_or (a b : pyval) : pyval := if truthy a then a else b.

(** An argument that may be absent ([None]) seen as a value. *)
Definition of_opt (o : option string) : pyval :=
  match o with Some s => VStr s | None => VNone end.

(** A dictionary, as the list of its items in iteration order; the keys of a
    dictionary are pairwise distinct. *)
Definition dict : Type := list (string * pyval).

Fixpoint lookup {V : Type} (d : list (string * V)) (k : string) : option V :=
  match d with
  | [] => None
  | (k', v) :: d' => if (k' =? k)%string then Some v else lookup d' k
  end.

(** [d.get(k)] and [d.get(k, default)]. *)
Definition get (d : dict) (k : string) : pyval :=
  match lookup d k with Some v => v | None => VNone end.

Definition get_default (d : dict) (k : string) (dflt : pyval) : pyval :=
  match lookup d k with Some v => v | None => dflt end.

Definition has_key {V : Type} (d : list (string * V)) (k : string) : bool :=
  match lookup d k with Some _ => true | None => false end.

(** [d[k] = v]: the item is replaced where it stands, or added. *)
Fixpoint set (d : dict) (k : string) (v : pyval) : dict :=
  match d with
  | [] => [(k, v)]
  | (k', v') :: d' =>
      if (k' =? k)%string then (k, v) :: d' else (k', v') :: set d' k v
  end.

(** [d.setdefault(k, v)]. *)
Definition setdefault (d : dict) (k : string) (v : pyval) : dict :=
  if has_key d k then d else set d k v.

Definition keys {V : Type} (d : list (string * V)) : list string := map fst d.

(** [s.replace('@', '')]. *)
Fixpoint strip_at (s : string) : string :=
  match s with
  | EmptyString => EmptyString
  | String c s' => if (c =? "@")%char then strip_at s' else String c (strip_at s')
  end.

(** Python 2 ordering of values of any types: [None] is the smallest, the
    numbers come next, then lists, then strings. *)
Fixpoint list_le (l1 l2 : list string) : bool :=
  match l1, l2 with
  | [], _ => true
  | _ :: _, [] => false
  | x :: l1', y :: l2' =>
      match String.compare x y with
      | Lt => true
      | Gt => false
      | Eq => list_le l1' l2'
      end
  end.

Definition py_le (a b : pyval) : bool :=
  match a, b with
  | VNone, _ => true
  | _, VNone => false
  | VBool x, VBool y => Z.b2z x <=? Z.b2z y
  | VBool x, VInt y => Z.b2z x <=? y
  | VInt x, VBool y => x <=? Z.b2z y
  | VInt x, VInt y => x <=? y
  | (VBool _ | VInt _), _ => true
  | _, (VBool _ | VInt _) => false
  | VList x, VList y => list_le x y
  | VList _, VStr _ => true
  | VStr _, VList _ => false
  | VStr x, VStr y => String.leb x y
  end.

(** [list.sort(key=...)]: a stable sort of the items by their keys, here by
    insertion. *)
Section StableSort.
Context {A K : Type} (le : K -> K -> bool) (key : A -> K).

Fixpoint insert_by (x : A) (l : list A) : list A :=
  match l with
  | [] => [x]
  | y :: l' =>
      if le (key x) (key y) then x :: y :: l' else y :: insert_by x l'
  end.

Definition sort_by (l : list A) : list A := fold_right insert_by [] l.
End StableSort.

End Py.
Import Py.

(** ** The request, the world and the trace of calls *)

Record request : Type := mkRequest {
  method : string;
  uri : string;
  body : string;
  arguments : list (string * string)
}.

(** [self.get_argument(name, None)]. *)
Definition get_argument (r : request) (name : string) : option string :=
  lookup (arguments r) name.

(** [self.get_argument(name, None) == 'true']. *)
Definition flag_argument (r : request) (name : string) : bool :=
  match get_argument r name with
  | Some v => (v =? "true")%string
  | None => false
  end.

(** [self.get_argument(name, None) == value]. *)
Definition argument_is (r : request) (name value : string) : bool :=
  match get_argument r name with
  | Some v => (v =? value)%string
  | None => false
  end.

(** What is handed to [self.finish]. *)
Inductive payload : Type :=
| PJson (d : dict)
| PCameras (l : list dict)
| PContent (content : string)
| PNothing.

(** Calls that leave the handler, in the order they are made. *)
Inductive effect : Type :=
| LogError (msg : string)
| LogWarn (msg : string)
| SetHeader (name value : string)
| Finish (p : payload)
| ConfigSetMain (d : dict)
| ConfigSetCamera (camera_id : Z) (d : dict)
| RemoteSetConfig (local_config ui_config : dict)
| RemoteGetConfig (camera_id : Z) (local_config : dict)
| RemoteListCameras
| TestMjpegUrl (auth_modes : list string) (allow_jpeg : bool)
| RemoteGetMediaPreview (local_config : dict) (filename media_type : string)
| RemoteCheckTimelapseMovie (local_config : dict) (group : string)
| MotionStop
| MotionStart
| SmbUpdateMounts
| AddTimeoutReboot (seconds : Z)
| MakeTimelapseMovie (camera_config : dict) (framerate interval : Z) (group : string).

(** The time-lapse tracker of [mediafiles]. *)
Record timelapse_status : Type := mkStatus {
  progress : Z;
  data : option string
}.

Record world : Type := mkWorld {
  main_config : dict;
  camera_configs : list (Z * dict);
  tracker : timelapse_status;
  trace : list effect
}.

Definition emit_w (e : effect) (w : world) : world :=
  mkWorld (main_config w) (camera_configs w) (tracker w) (trace w ++ [e]).

(** ** Exceptions and the handler monad *)

Inductive exn : Type :=
| HTTPError (code : Z) (msg : string)
| KeyError (key : string)
| ValueError
| TypeError
| AttributeError.

Inductive result (A : Type) : Type :=
| Ok (a : A)
| Raise (e : exn).
Arguments Ok {A} a.
Arguments Raise {A} e.

Definition M (A : Type) : Type := world -> result A * world.

Definition ret {A : Type} (a : A) : M A := fun w => (Ok a, w).

Definition bind {A B : Type} (m : M A) (f : A -> M B) : M B :=
  fun w =>
    match m w with
    | (Ok a, w') => f a w'
    | (Raise e, w') => (Raise e, w')
    end.

Definition raise {A : Type} (e : exn) : M A := fun w => (Raise e, w).

Definition emit (e : effect) : M unit := fun w => (Ok tt, emit_w e w).

Definition read {A : Type} (f : world -> A) : M A := fun w => (Ok (f w), w).

Declare Scope handler_scope.
Delimit Scope handler_scope with handler.
Notation "x <- m ;; k" := (bind m (fun x => k))
  (at level 100, m at next level, right associativity) : handler_scope.
Notation "m ;; k" := (bind m (fun _ => k))
  (at level 100, right associativity) : handler_scope.
Open Scope handler_scope.

(** [d[k]], which raises [KeyError] on a missing key. *)
Definition item (d : dict) (k : string) : M pyval :=
  match lookup d k with
  | Some v => ret v
  | None => raise (KeyError k)
  end.

Definition set_header (name value : string) : M unit := emit (SetHeader name value).

(** [BaseHandler.finish_json]. *)
Definition finish_json (d : dict) : M unit :=
  set_header "Content-Type" "application/json" ;;
  emit (Finish (PJson d)).

(** [self.finish_json({'cameras': []})]. *)
Definition finish_json_cameras_empty {A : Type} (a : A) : M A :=
  set_header "Content-Type" "application/json" ;;
  emit (Finish (PCameras [])) ;;
  ret a.

(** ** Collaborators that are not part of handlers.py *)

Record Env : Type := mkEnv {
  (** utils.compute_signature(method, uri, body, key) *)
  compute_signature : string -> string -> string -> pyval -> string;
  (** utils.local_motion_camera, utils.remote_camera *)
  local_motion_camera : dict -> bool;
  remote_camera : dict -> bool;
  (** config.camera_ui_to_dict(ui, old_config), config.camera_dict_to_ui,
      config.main_ui_to_dict *)
  camera_ui_to_dict : dict -> dict -> dict;
  camera_dict_to_ui : dict -> dict;
  main_ui_to_dict : dict -> dict;
  (** the names ['@_' + c['name']] of the additional main configs that have
      [reboot] set, from config.get_additional_structure(camera=False)[1] *)
  additional_reboot_names : list string;
  (** remote.pretty_camera_url *)
  pretty_camera_url : dict -> string;
  (** Python's [%s] conversion of a value *)
  py_str : pyval -> string;
  (** Python's [int] on a string; [None] stands for its ValueError *)
  py_int : string -> option Z;
  (** settings.ENABLE_REBOOT, settings.SMB_SHARES *)
  ENABLE_REBOOT : bool;
  SMB_SHARES : bool;
  (** the [start] component of what smbctl.update_mounts() answers *)
  update_mounts_start : bool;
  (** the contents of static/img/no-preview.svg *)
  no_preview_svg : string;
  (** mediafiles.get_media_preview(camera_config, filename, media_type,
      width, height) *)
  get_media_preview :
    dict -> string -> string -> option string -> option string -> option string
}.

(** ** BaseHandler.get_current_user and BaseHandler.auth *)

Section Auth.
Variable E : Env.

Definition signature_of (r : request) (key : pyval) : pyval :=
  VStr (compute_signature E (method r) (uri r) (body r) key).

(** [username == cfg.get(user_key) and signature == compute_signature(...,
    cfg.get(password_key))]. *)
Definition credentials_match (cfg : dict) (user_key password_key : string)
           (r : request) : bool :=
  py_eq (of_opt (get_argument r "_username")) (get cfg user_key)
  && py_eq (of_opt (get_argument r "_signature"))
           (signature_of r (get cfg password_key)).

Definition get_current_user (r : request) : M (option string) :=
  main_config <- read main_config ;;
  let username := of_opt (get_argument r "_username") in
  let login := flag_argument r "_login" in
  if credentials_match main_config "@admin_username" "@admin_password" r then
    ret (Some "admin")
  else if negb (truthy username)
          && negb (truthy (get main_config "@normal_password")) then
    ret (Some "normal")
  else if credentials_match main_config "@normal_username" "@normal_password" r then
    ret (Some "normal")
  else if truthy username && negb (py_eq username (VStr "_")) && login then
    emit (LogError ("authentication failed for user "
                      ++ match get_argument r "_username" with
                         | Some u => u
                         | None => ""
                         end)) ;;
    ret None
  else
    ret None.

(** The wrapper that [BaseHandler.auth(admin, prompt)] puts around a
    handler method [func]. *)
Definition auth (admin prompt : bool) (func : request -> M unit)
  : request -> M unit :=
  fun r =>
    let _admin := flag_argument r "_admin" in
    user <- get_current_user r ;;
    if match user with
       | None => true
       | Some u => negb (u =? "admin")%string && (admin || _admin)
       end
    then
      set_header "Content-Type" "application/json" ;;
      finish_json [("error", VStr "unauthorized"); ("prompt", VBool prompt)]
    else
      func r.
End Auth.

(** ** The configuration store *)

Fixpoint zlookup {V : Type} (l : list (Z * V)) (k : Z) : option V :=
  match l with
  | [] => None
  | (k', v) :: l' => if k' =? k then Some v else zlookup l' k
  end.

Fixpoint zset {V : Type} (l : list (Z * V)) (k : Z) (v : V) : list (Z * V) :=
  match l with
  | [] => [(k, v)]
  | (k', v') :: l' => if k' =? k then (k, v) :: l' else (k', v') :: zset l' k v
  end.

(** Modelled from the spec: the configuration store (module [config], whose
    code is not in handlers.py) with its interface [get_main], [set_main],
    [list_camera_ids], [get_camera] and [set_camera]; a write replaces the
    stored record and is also entered in the trace. *)
Definition config_get_main : M dict := read main_config.

Definition config_set_main (d : dict) : M unit :=
  fun w =>
    (Ok tt, mkWorld d (camera_configs w) (tracker w)
                    (trace w ++ [ConfigSetMain d])).

Definition config_get_camera_ids : M (list Z) :=
  read (fun w => map fst (camera_configs w)).

Definition config_get_camera (camera_id : Z) : M (option dict) :=
  read (fun w => zlookup (camera_configs w) camera_id).

Definition config_set_camera (camera_id : Z) (d : dict) : M unit :=
  fun w =>
    (Ok tt, mkWorld (main_config w) (zset (camera_configs w) camera_id d)
                    (tracker w) (trace w ++ [ConfigSetCamera camera_id d])).

(** A record read for a camera that must exist: the helpers of [utils]
    fail on [None]. *)
Definition the_camera (o : option dict) : M dict :=
  match o with
  | Some d => ret d
  | None => raise AttributeError
  end.

(** ** ConfigHandler.set_config *)

(** The mutable cells [reload], [reboot], [restart], [error] and [so_far]
    that the closures of [set_config] share. *)
Record cells : Type := mkCells {
  reload : bool;
  reboot : bool;
  restart : bool;
  error : pyval;
  so_far : nat
}.

(** What [set_main_config] returns. *)
Record main_result : Type := mkMainResult {
  res_reload : bool;
  res_reboot : bool;
  res_restart : bool
}.

(** The decoded request body: one configuration, or a mapping from ['main']
    and camera ids to configurations. *)
Inductive ui_body : Type :=
| OneConfig (ui_config : dict)
| ManyConfigs (ui_config : list (string * dict)).

Section SetConfig.
Variable E : Env.

Definition credentials (cfg : dict) (user_key password_key : string) : string :=
  py_str E (get_default cfg user_key (VStr "")) ++ ":"
  ++ py_str E (get_default cfg password_key (VStr "")).

(** The loop of [set_main_config] that derives every local camera's
    configuration again; it answers the new value of [restart]. *)
Fixpoint reconfigure_local_cameras (ids : list Z) (restart : bool) : M bool :=
  match ids with
  | [] => ret restart
  | camera_id :: ids' =>
      o <- config_get_camera camera_id ;;
      local_config <- the_camera o ;;
      if negb (local_motion_camera E local_config) then
        reconfigure_local_cameras ids' restart
      else
        let ui_config := camera_dict_to_ui E local_config in
        let local_config := camera_ui_to_dict E ui_config local_config in
        config_set_camera camera_id local_config ;;
        reconfigure_local_cameras ids' true
  end.

Definition set_main_config (ui_config : dict) : M main_result :=
  old_main_config <- config_get_main ;;
  let old_admin_credentials :=
    credentials old_main_config "@admin_username" "@admin_password" in
  let old_normal_credentials :=
    credentials old_main_config "@normal_username" "@normal_password" in
  let main_config := main_ui_to_dict E ui_config in
  let main_config :=
    setdefault main_config "thread"
               (get_default old_main_config "thread" (VList [])) in
  let admin_credentials :=
    credentials main_config "@admin_username" "@admin_password" in
  let normal_credentials :=
    credentials main_config "@normal_username" "@normal_password" in
  let reboot_config_names :=
    (additional_reboot_names E ++ ["@admin_password"])%list in
  let reboot :=
    match filter (fun k => negb (py_eq (get old_main_config k) (get main_config k)))
                 reboot_config_names with
    | [] => false
    | _ :: _ => true
    end in
  config_set_main main_config ;;
  let reload := negb (admin_credentials =? old_admin_credentials)%string in
  restart <-
    (if negb (normal_credentials =? old_normal_credentials)%string then
       ids <- config_get_camera_ids ;;
       reconfigure_local_cameras ids false
     else ret false) ;;
  let reboot := if reboot && ENABLE_REBOOT E then reboot else false in
  ret (mkMainResult reload reboot restart).

(** The callback type of [on_finish] and [check_finished]: error, restart
    flag, and the cells they update. *)
Definition on_finish_t : Type := pyval -> bool -> cells -> M cells.

(** [on_finish_wrapper], which the remote client calls with its error. *)
Definition on_finish_wrapper (on_finish : on_finish_t) (error : pyval)
  : cells -> M cells :=
  on_finish error false.

Definition set_camera_config (camera_ids : list Z) (camera_id : Z)
           (ui_config : dict) (on_finish : on_finish_t) (c : cells) : M cells :=
  if negb (existsb (Z.eqb camera_id) camera_ids) then
    raise (HTTPError 404 "no such camera")
  else
    o <- config_get_camera camera_id ;;
    local_config <- the_camera o ;;
    if local_motion_camera E local_config then
      let local_config := camera_ui_to_dict E ui_config local_config in
      config_set_camera camera_id local_config ;;
      on_finish VNone true c
    else if remote_camera E local_config then
      enabled <- item ui_config "enabled" ;;
      let local_config := set local_config "@enabled" enabled in
      config_set_camera camera_id local_config ;;
      if has_key ui_config "name" then
        let ui_config := set ui_config "enabled" (VBool true) in
        emit (RemoteSetConfig local_config ui_config) ;;
        ret c
      else
        on_finish VNone false c
    else
      ret c.

Definition restart_motion : M unit :=
  emit MotionStop ;;
  if SMB_SHARES E then
    emit SmbUpdateMounts ;;
    if update_mounts_start E then emit MotionStart else ret tt
  else
    emit MotionStart.

(** The end of [finish]: the daemon is restarted if needed and the
    outcome is written. *)
Definition finish_tail (c : cells) : M cells :=
  (if restart c then restart_motion else ret tt) ;;
  emit (Finish (PJson [("reload", VBool (reload c)); ("reboot", VBool (reboot c));
                       ("error", error c)])) ;;
  ret c.

Definition finish (c : cells) : M cells :=
  if reboot c then
    if ENABLE_REBOOT E then
      emit (AddTimeoutReboot 2) ;;
      emit (Finish (PJson [("reload", VBool false); ("reboot", VBool true);
                           ("error", VNone)])) ;;
      ret c
    else
      finish_tail (mkCells (reload c) false (restart c) (error c) (so_far c))
  else
    finish_tail c.

Definition check_finished (len : nat) : on_finish_t :=
  fun e r c =>
    let c := mkCells (reload c) (reboot c) (restart c || r)
                     (py_or (error c) e) (S (so_far c)) in
    if (len <=? so_far c)%nat then finish c else ret c.

(** The body of [for key, cfg in items]. *)
Definition set_item (camera_ids : list Z) (len : nat)
           (it : string * dict) (c : cells) : M cells :=
  let (key, cfg) := it in
  if (key =? "main")%string then
    result <- set_main_config cfg ;;
    let c := mkCells (res_reload result || reload c)
                     (res_reboot result || reboot c)
                     (res_restart result || restart c)
                     (error c) (so_far c) in
    check_finished len VNone (reload c) c
  else
    match py_int E key with
    | None => raise ValueError
    | Some camera_id =>
        set_camera_config camera_ids camera_id cfg (check_finished len) c
    end.

Fixpoint set_items (camera_ids : list Z) (len : nat)
         (items : list (string * dict)) (c : cells) : M cells :=
  match items with
  | [] => ret c
  | it :: items' =>
      c <- set_item camera_ids len it c ;;
      set_items camera_ids len items' c
  end.

(** [key != 'main'], the sort key that puts the main config first. *)
Definition not_main (it : string * dict) : bool :=
  negb (fst it =? "main")%string.

Definition initial_cells : cells := mkCells false false false VNone 0.

(** [on_finish] of the single camera branch. *)
Definition on_finish_single : on_finish_t :=
  fun e r c => finish (mkCells (reload c) (reboot c) r e (so_far c)).

(** [set_config] below its [auth] wrapper; it answers the cells as the
    synchronous part leaves them. *)
Definition set_config (camera_id : option Z) (ui : ui_body) : M cells :=
  camera_ids <- config_get_camera_ids ;;
  let c := initial_cells in
  match camera_id with
  | Some camera_id =>
      if camera_id =? 0 then
        match ui with
        | ManyConfigs ui_config =>
            let len := List.length ui_config in
            (if (1 <? len)%nat then ret tt
             else if (len =? 0)%nat then
               emit (LogWarn "no configuration to set") ;;
               emit (Finish PNothing)
             else ret tt) ;;
            let items := sort_by implb not_main ui_config in
            set_items camera_ids len items c
        | OneConfig _ => raise TypeError
        end
      else
        match ui with
        | OneConfig ui_config =>
            set_camera_config camera_ids camera_id ui_config on_finish_single c
        | ManyConfigs _ => raise TypeError
        end
  | None =>
      match ui with
      | OneConfig ui_config =>
          result <- set_main_config ui_config ;;
          ret (mkCells (res_reload result) (res_reboot result)
                       (res_restart result) (error c) (so_far c))
      | ManyConfigs _ => raise TypeError
      end
  end.

(** The completions that the remote client delivers after the
    synchronous part of a bulk commit, one error value per call. *)
Fixpoint deliver (len : nat) (errors : list pyval) (c : cells) : M cells :=
  match errors with
  | [] => ret c
  | e :: errors' =>
      c <- on_finish_wrapper (check_finished len) e c ;;
      deliver len errors' c
  end.
End SetConfig.

(** ** ConfigHandler.list_cameras *)

Section ListCameras.
Variable E : Env.

(** [cameras.sort(key=lambda c: c['id'])]: the keys are taken first, then
    the cameras are sorted by them. *)
Fixpoint id_keys (cameras : list dict) : M (list (pyval * dict)) :=
  match cameras with
  | [] => ret []
  | c :: cameras' =>
      k <- item c "id" ;;
      rest <- id_keys cameras' ;;
      ret ((k, c) :: rest)
  end.

Definition sort_cameras (cameras : list dict) : M (list dict) :=
  keyed <- id_keys cameras ;;
  ret (map snd (sort_by py_le fst keyed)).

(** [check_finished] of the local listing; it answers the list
    [cameras], which the sort changes in place. *)
Definition check_finished_list (length : nat) (cameras : list dict)
  : M (list dict) :=
  if (List.length cameras =? length)%nat then
    cameras <- sort_cameras cameras ;;
    set_header "Content-Type" "application/json" ;;
    emit (Finish (PCameras cameras)) ;;
    ret cameras
  else
    ret cameras.

(** The entry that stands for a remote camera that could not be asked. *)
Definition placeholder (camera_id : Z) (local_config : dict) : dict :=
  [("id", VInt camera_id);
   ("name", VStr ("&lt;" ++ pretty_camera_url E local_config ++ "&gt;"));
   ("enabled", VBool false);
   ("streaming_framerate", VInt 1);
   ("framerate", VInt 1)].

(** [for key, value in local_config.items():
       remote_ui_config[key.replace('@', '')] = value]. *)
Definition merge_local (local_config remote_ui_config : dict) : dict :=
  fold_left (fun r kv => set r (strip_at (fst kv)) (snd kv))
            local_config remote_ui_config.

(** [on_response_builder(camera_id, local_config)], applied by the remote
    client to the peer's configuration or to an error. *)
Definition on_response_builder (length : nat) (camera_id : Z)
           (local_config : dict)
           (remote_ui_config : option dict) (error : pyval)
           (cameras : list dict) : M (list dict) :=
  if truthy error then
    check_finished_list length
      (cameras ++ [placeholder camera_id local_config])%list
  else
    match remote_ui_config with
    | None => raise TypeError
    | Some remote_ui_config =>
        let remote_ui_config := set remote_ui_config "id" (VInt camera_id) in
        remote_enabled <- item remote_ui_config "enabled" ;;
        local_enabled <- item local_config "@enabled" ;;
        if negb (truthy remote_enabled) && truthy local_enabled then
          let local_config := set local_config "@enabled" (VBool false) in
          config_set_camera camera_id local_config ;;
          check_finished_list length
            (cameras ++ [merge_local local_config remote_ui_config])%list
        else if truthy remote_enabled && negb (truthy local_enabled) then
          let remote_ui_config := set remote_ui_config "enabled" (VBool false) in
          check_finished_list length
            (cameras ++ [merge_local local_config remote_ui_config])%list
        else
          check_finished_list length
            (cameras ++ [merge_local local_config remote_ui_config])%list
    end.

(** The loop [for camera_id in camera_ids] of the local listing. *)
Fixpoint list_local_cameras (force : bool) (length : nat)
         (camera_ids : list Z) (cameras : list dict) : M (list dict) :=
  match camera_ids with
  | [] => ret cameras
  | camera_id :: camera_ids' =>
      o <- config_get_camera camera_id ;;
      match o with
      | None => list_local_cameras force length camera_ids' cameras
      | Some local_config =>
          cameras <-
            (if local_motion_camera E local_config then
               let ui_config := camera_dict_to_ui E local_config in
               check_finished_list length (cameras ++ [ui_config])%list
             else if remote_camera E local_config then
               if truthy (get local_config "@enabled") || force then
                 emit (RemoteGetConfig camera_id local_config) ;;
                 ret cameras
               else
                 on_response_builder length camera_id local_config
                                     None (VBool true) cameras
             else
               ret cameras) ;;
          list_local_cameras force length camera_ids' cameras
      end
  end.

(** [list_cameras] below its [auth] wrapper; it answers [length[0]] and
    the list [cameras] as the synchronous part leaves them, for the
    callbacks that share them.  The request carries no uploaded files, so
    [get_data()] is the arguments. *)
Definition list_cameras (r : request) : M (nat * list dict) :=
  if argument_is r "proto" "motioneye" then
    emit RemoteListCameras ;; ret (0%nat, [])
  else if argument_is r "proto" "netcam" then
    emit (TestMjpegUrl ["basic"] true) ;; ret (0%nat, [])
  else if argument_is r "proto" "mjpeg" then
    emit (TestMjpegUrl ["basic"; "digest"] false) ;; ret (0%nat, [])
  else
    camera_ids <- config_get_camera_ids ;;
    main_config <- config_get_main ;;
    let camera_ids :=
      if negb (truthy (get main_config "@enabled")) then [] else camera_ids in
    let length := List.length camera_ids in
    cameras <-
      list_local_cameras (flag_argument r "force") length camera_ids [] ;;
    if (length =? 0)%nat then
      finish_json_cameras_empty (length, cameras)
    else
      ret (length, cameras).
End ListCameras.

(** ** PictureHandler.timelapse, start of a render *)

(** Modelled from the spec: the time-lapse tracker of [mediafiles] (not in
    handlers.py).  [check_timelapse_movie] answers the tracker's progress
    (-1 when idle) and result without changing them;
    [make_timelapse_movie] starts a job, which puts the tracker in its
    running state with progress 0 and no result. *)
Definition check_timelapse_movie : M timelapse_status := read tracker.

Definition make_timelapse_movie (camera_config : dict) (framerate interval : Z)
           (group : string) : M unit :=
  fun w =>
    (Ok tt, mkWorld (main_config w) (camera_configs w) (mkStatus 0 None)
                    (trace w ++ [MakeTimelapseMovie camera_config framerate
                                                    interval group])).

Section Media.
Variable E : Env.

(** [int(self.get_argument(name))]: a missing argument is a 400. *)
Definition int_argument (r : request) (name : string) : M Z :=
  match get_argument r name with
  | None => raise (HTTPError 400 ("Missing argument " ++ name))
  | Some v =>
      match py_int E v with
      | Some z => ret z
      | None => raise ValueError
      end
  end.

Definition truthy_argument (r : request) (name : string) : bool :=
  truthy (of_opt (get_argument r name)).

(** [timelapse] below its [auth] wrapper.  [download] and [check] stand
    for the two branches that serve a prepared movie and poll the
    progress; the start of a render enters neither. *)
Definition timelapse (download check : M unit)
           (camera_id : Z) (group : string) (r : request) : M unit :=
  o <- config_get_camera camera_id ;;
  if truthy_argument r "key" then download
  else if truthy_argument r "check" then check
  else
    interval <- int_argument r "interval" ;;
    framerate <- int_argument r "framerate" ;;
    camera_config <- the_camera o ;;
    if local_motion_camera E camera_config then
      status <- check_timelapse_movie ;;
      if negb (progress status =? -1) then
        finish_json [("progress", VInt (progress status))]
      else
        make_timelapse_movie camera_config framerate interval group ;;
        finish_json [("progress", VInt (-1))]
    else if remote_camera E camera_config then
      emit (RemoteCheckTimelapseMovie camera_config group)
    else
      raise (HTTPError 400 "unknown operation").

(** ** PictureHandler.preview and MovieHandler.preview *)

(** The end of both branches: the preview as a JPEG, or the placeholder. *)
Definition serve_preview (content : option string) : M unit :=
  if truthy (of_opt content) then
    set_header "Content-Type" "image/jpeg" ;;
    emit (Finish (PContent match content with Some c => c | None => "" end))
  else
    set_header "Content-Type" "image/svg+xml" ;;
    emit (Finish (PContent (no_preview_svg E))).

(** [on_response] of the remote branch. *)
Definition preview_on_response (content : option string) (error : pyval)
  : M unit :=
  serve_preview content.

(** The two [preview] methods differ in their media type only. *)
Definition preview (media_type : string) (camera_id : Z) (filename : string)
           (r : request) : M unit :=
  o <- config_get_camera camera_id ;;
  camera_config <- the_camera o ;;
  if local_motion_camera E camera_config then
    let content :=
      get_media_preview E camera_config filename media_type
                        (get_argument r "width") (get_argument r "height") in
    serve_preview content
  else if remote_camera E camera_config then
    emit (RemoteGetMediaPreview camera_config filename media_type)
  else
    raise (HTTPError 400 "unknown operation").

Definition PictureHandler_preview := preview "picture".
Definition MovieHandler_preview := preview "movie".
End Media.

(** ** The event loop's side of the local listing *)

(** One answer of the remote client: the callback built for
    [(camera_id, local_config)] is applied to the peer's configuration or
    to an error. *)
Record delivery : Type := mkDelivery {
  d_id : Z;
  d_local : dict;
  d_remote : option dict;
  d_error : pyval
}.

Fixpoint deliver_responses (E : Env) (length : nat) (ds : list delivery)
         (cameras : list dict) : M (list dict) :=
  match ds with
  | [] => ret cameras
  | d :: ds' =>
      cameras <- on_response_builder E length (d_id d) (d_local d)
                                     (d_remote d) (d_error d) cameras ;;
      deliver_responses E length ds' cameras
  end.

(** The local listing followed by the answers [ds] of the peers. *)
Definition list_cameras_then (E : Env) (r : request) (ds : list delivery)
  : M (list dict) :=
  st <- list_cameras E r ;;
  deliver_responses E (fst st) ds (snd st).

(** The requests to peers and the responses that a trace holds. *)
Fixpoint pending (t : list effect) : list (Z * dict) :=
  match t with
  | [] => []
  | RemoteGetConfig camera_id local_config :: t' =>
      (camera_id, local_config) :: pending t'
  | _ :: t' => pending t'
  end.

Fixpoint responses (t : list effect) : list payload :=
  match t with
  | [] => []
  | Finish p :: t' => p :: responses t'
  | _ :: t' => responses t'
  end.

Definition is_remote_write (e : effect) : bool :=
  match e with
  | RemoteSetConfig _ _ => true
  | _ => false
  end.

Definition is_timelapse_start (e : effect) : bool :=
  match e with
  | MakeTimelapseMovie _ _ _ _ => true
  | _ => false
  end.

(** ** The statements of the specification *)

Module Spec.

(** Resolution order of the authenticator, in the words of the
    specification. *)
Section Authenticate.
Variable E : Env.
Variable cfg : dict.
Variable r : request.

Definition supplied_username : option string := get_argument r "_username".

Definition matches_credential (user_key password_key : string) : Prop :=
  py_eq (of_opt supplied_username) (get cfg user_key) = true /\
  py_eq (of_opt (get_argument r "_signature"))
        (VStr (compute_signature E (method r) (uri r) (body r)
                                 (get cfg password_key))) = true.

Definition no_username : Prop :=
  supplied_username = None \/ supplied_username = Some "".

Definition normal_password_unset : Prop :=
  truthy (get cfg "@normal_password") = false.

Definition explicit_login (u : string) : Prop :=
  supplied_username = Some u /\ u <> "" /\ u <> "_" /\
  get_argument r "_login" = Some "true".

Inductive authenticate : option string -> list effect -> Prop :=
| auth_admin :
    matches_credential "@admin_username" "@admin_password" ->
    authenticate (Some "admin") []
| auth_open :
    ~ matches_credential "@admin_username" "@admin_password" ->
    no_username -> normal_password_unset ->
    authenticate (Some "normal") []
| auth_normal :
    ~ matches_credential "@admin_username" "@admin_password" ->
    ~ (no_username /\ normal_password_unset) ->
    matches_credential "@normal_username" "@normal_password" ->
    authenticate (Some "normal") []
| auth_failed_login u :
    ~ matches_credential "@admin_username" "@admin_password" ->
    ~ (no_username /\ normal_password_unset) ->
    ~ matches_credential "@normal_username" "@normal_password" ->
    explicit_login u ->
    authenticate None [LogError ("authentication failed for user " ++ u)]
| auth_none :
    ~ matches_credential "@admin_username" "@admin_password" ->
    ~ (no_username /\ normal_password_unset) ->
    ~ matches_credential "@normal_username" "@normal_password" ->
    (forall u, ~ explicit_login u) ->
    authenticate None [].
End Authenticate.

(** The guard rejects a caller with no role, and a caller who is not admin
    when admin is required or elevation is requested. *)
Definition unauthorized (role : option string) (requires_admin elevation : bool)
  : bool :=
  match role with
  | None => true
  | Some u => if string_dec u "admin" then false else requires_admin || elevation
  end.

Definition unauthorized_response (prompt : bool) : list effect :=
  [SetHeader "Content-Type" "application/json";
   SetHeader "Content-Type" "application/json";
   Finish (PJson [("error", VStr "unauthorized"); ("prompt", VBool prompt)])].

(** A payload that carries more than just the enabled flag. *)
Definition carries_more_than_enabled (ui_config : dict) : bool :=
  existsb (fun k => negb (k =? "enabled")%string) (keys ui_config).

(** Preview content is available when there is some, and it is not empty. *)
Definition available (content : option string) : bool :=
  match content with
  | Some c => negb (c =? "")%string
  | None => false
  end.

(** What a preview request must answer: the content as a JPEG when there
    is some, the placeholder image as SVG otherwise. *)
Definition preview_response (placeholder_svg : string) (content : option string)
  : list effect :=
  if available content then
    [SetHeader "Content-Type" "image/jpeg";
     Finish (PContent match content with Some c => c | None => "" end)]
  else
    [SetHeader "Content-Type" "image/svg+xml";
     Finish (PContent placeholder_svg)].

End Spec.

(** The calls by which [restart_motion] restarts the motion daemon. *)
Definition restart_effects (E : Env) : list effect :=
  MotionStop ::
  (if SMB_SHARES E
   then SmbUpdateMounts :: (if update_mounts_start E then [MotionStart] else [])
   else [MotionStart]).

(** A world extended by the effects [es]. *)
Definition extend (w : world) (es : list effect) : world :=
  mkWorld (main_config w) (camera_configs w) (tracker w) (trace w ++ es).

(** [adds P m]: whatever [m] does, it leaves the trace it found in place
    and adds effects that satisfy [P] only. *)
Definition adds {A : Type} (P : effect -> Prop) (m : M A) : Prop :=
  forall w r w',
    m w = (r, w') -> exists es, trace w' = (trace w ++ es)%list /\ Forall P es.

(** Effects that are not a write to a remote peer. *)
Definition local_effect (e : effect) : Prop := is_remote_write e = false.

(** *** The local listing in closed form *)

Section Listing.
Variable E : Env.
Variable force : bool.

(** A remote camera that the listing asks its peer about, and one that it
    leaves alone because it is disabled here. *)
Definition contacted (local_config : dict) : bool :=
  negb (local_motion_camera E local_config)
  && remote_camera E local_config
  && (truthy (get local_config "@enabled") || force).

Definition skipped (local_config : dict) : bool :=
  negb (local_motion_camera E local_config)
  && remote_camera E local_config
  && negb (truthy (get local_config "@enabled") || force).

(** The entries that the loop adds by itself, and the requests that it
    sends, for the cameras [cs] in their order. *)
Fixpoint entries (cs : list (Z * dict)) : list dict :=
  match cs with
  | [] => []
  | (camera_id, local_config) :: cs' =>
      if local_motion_camera E local_config then
        camera_dict_to_ui E local_config :: entries cs'
      else if skipped local_config then
        placeholder E camera_id local_config :: entries cs'
      else
        entries cs'
  end.

Fixpoint requests (cs : list (Z * dict)) : list (Z * dict) :=
  match cs with
  | [] => []
  | (camera_id, local_config) :: cs' =>
      if contacted local_config then (camera_id, local_config) :: requests cs'
      else requests cs'
  end.

(** The entry that one answer of a peer adds to the listing. *)
Definition delivered_entry (d : delivery) : dict :=
  if truthy (d_error d) then placeholder E (d_id d) (d_local d)
  else
    match d_remote d with
    | None => []
    | Some remote_ui_config =>
        let remote_ui_config := set remote_ui_config "id" (VInt (d_id d)) in
        let remote_enabled := get remote_ui_config "enabled" in
        let local_enabled := get (d_local d) "@enabled" in
        if negb (truthy remote_enabled) && truthy local_enabled then
          merge_local (set (d_local d) "@enabled" (VBool false)) remote_ui_config
        else if truthy remote_enabled && negb (truthy local_enabled) then
          merge_local (d_local d) (set remote_ui_config "enabled" (VBool false))
        else
          merge_local (d_local d) remote_ui_config
    end.

(** An answer is either an error, or a configuration with its enabled
    flag for a camera whose local record has one too. *)
Definition answered (d : delivery) : Prop :=
  truthy (d_error d) = true \/
  exists remote_ui_config,
    d_remote d = Some remote_ui_config /\
    has_key remote_ui_config "enabled" = true /\
    has_key (d_local d) "@enabled" = true.
End Listing.

(** The cameras in the order of their ids. *)
Definition sorted_by_id (cameras : list dict) : list dict :=
  map snd (sort_by py_le fst (map (fun c => (get c "id", c)) cameras)).

(** A request for the local listing: [proto] names no other kind. *)
Definition local_listing (r : request) : Prop :=
  argument_is r "proto" "motioneye" = false /\
  argument_is r "proto" "netcam" = false /\
  argument_is r "proto" "mjpeg" = false.

(** The requests [rs] as the effects that send them. *)
Definition request_effects (rs : list (Z * dict)) : list effect :=
  map (fun p => RemoteGetConfig (fst p) (snd p)) rs.

Definition has_id (c : dict) : Prop := has_key c "id" = true.

(** The response that ends a listing. *)
Definition listing_response (cameras : list dict) : list effect :=
  [SetHeader "Content-Type" "application/json"; Finish (PCameras cameras)].

(** Effects on the response object only. *)
Definition response_effect (e : effect) : Prop :=
  match e with
  | SetHeader _ _ | Finish _ => True
  | _ => False
  end.

(** ** A small installation, for concrete runs *)

Module Example.

Definition str_of (v : pyval) : string :=
  match v with
  | VNone => "None"
  | VBool true => "True"
  | VBool false => "False"
  | VInt z => NilZero.string_of_int (Z.to_int z)
  | VStr s => s
  | VList l => "[" ++ String.concat ", " l ++ "]"
  end.

Definition int_of (s : string) : option Z :=
  option_map Z.of_int (NilZero.int_of_string s).

Definition env (enable_reboot : bool) : Env :=
  {| compute_signature := fun m u b key => m ++ ":" ++ u ++ ":" ++ b ++ ":" ++ str_of key;
     local_motion_camera := fun d =>
       truthy (py_or (get d "videodevice") (get d "netcam_url"));
     remote_camera := fun d => py_eq (get d "@proto") (VStr "motioneye");
     camera_ui_to_dict := fun ui old =>
       fold_left (fun d kv => set d (fst kv) (snd kv)) ui old;
     camera_dict_to_ui := fun d => map (fun kv => (strip_at (fst kv), snd kv)) d;
     main_ui_to_dict := fun ui => map (fun kv => ("@" ++ fst kv, snd kv)) ui;
     additional_reboot_names := [];
     pretty_camera_url := fun d => str_of (get d "@host");
     py_str := str_of;
     py_int := int_of;
     ENABLE_REBOOT := enable_reboot;
     SMB_SHARES := false;
     update_mounts_start := true;
     no_preview_svg := "<svg/>";
     get_media_preview := fun d filename media_type width height =>
       if (filename =? "lost.jpg")%string then None else Some ("jpeg:" ++ filename) |}.

Definition local_cam (id : Z) : dict :=
  [("@id", VInt id); ("@name", VStr "yard"); ("@enabled", VBool true);
   ("videodevice", VStr "/dev/video0")].

Definition remote_cam (id : Z) (enabled : bool) : dict :=
  [("@id", VInt id); ("@proto", VStr "motioneye"); ("@host", VStr "peer");
   ("@enabled", VBool enabled)].

Definition main_cfg (enabled : bool) : dict :=
  [("@enabled", VBool enabled);
   ("@admin_username", VStr "admin"); ("@admin_password", VStr "oldpw");
   ("@normal_username", VStr ""); ("@normal_password", VStr "")].

Definition idle : timelapse_status := mkStatus (-1) None.

Definition world0 : world :=
  mkWorld (main_cfg true)
          [(1, local_cam 1); (3, remote_cam 3 true); (5, remote_cam 5 false)]
          idle [].

End Example.

(** ** More of handlers.py: names of attachments *)

(** The characters that [re.sub('[^a-zA-Z0-9]', '_', s)] keeps. *)
Definition is_alnum (c : ascii) : bool :=
  let n := nat_of_ascii c in
  ((48 <=? n) && (n <=? 57) || (65 <=? n) && (n <=? 90)
   || (97 <=? n) && (n <=? 122))%nat.

(** [re.sub('[^a-zA-Z0-9]', '_', s)]. *)
Fixpoint sanitize (s : string) : string :=
  match s with
  | EmptyString => EmptyString
  | String c s' => String (if is_alnum c then c else "_"%char) (sanitize s')
  end.

Fixpoint contains_slash (s : string) : bool :=
  match s with
  | EmptyString => false
  | String c s' => (c =? "/")%char || contains_slash s'
  end.

(** [os.path.basename]: what follows the last ['/']. *)
Fixpoint basename (s : string) : string :=
  match s with
  | EmptyString => EmptyString
  | String c s' =>
      if contains_slash s' then basename s'
      else if (c =? "/")%char then s'
      else String c s'
  end.

(** [d[k] + ...]: the item, which must be a string to be concatenated. *)
Definition str_item (d : dict) (k : string) : M string :=
  v <- item d k ;;
  match v with
  | VStr s => ret s
  | _ => raise TypeError
  end.

(** [self.finish(content)] for content that may be [None]. *)
Definition finish_content (content : option string) : M unit :=
  emit (Finish match content with
               | Some c => PContent c
               | None => PNothing
               end).

(** ** PictureHandler.download and MovieHandler.download *)

Section Downloads.
Variable E : Env.
(** mediafiles.get_media_content(camera_config, filename, media_type) *)
Variable get_media_content : dict -> string -> string -> option string.
(** the call of remote.get_media_content, whose answer comes later *)
Variable remote_get_media_content : dict -> string -> string -> M unit.

Definition attachment (pretty_filename : string) : string :=
  "attachment; filename=" ++ pretty_filename ++ ";".

(** [on_response] of the remote branch. *)
Definition download_on_response (media_type content_type : string)
           (camera_config : dict) (filename : string)
           (response : option string) (error : pyval) : M unit :=
  if truthy error then
    finish_json
      [("error", VStr ("Failed to download " ++ media_type ++ " from "
                       ++ pretty_camera_url E camera_config ++ ": "
                       ++ py_str E error ++ "."))]
  else
    let pretty_filename := basename filename in
    set_header "Content-Type" content_type ;;
    set_header "Content-Disposition" (attachment pretty_filename) ;;
    finish_content response.

(** The two [download] methods differ in the media type and in the
    content type that goes with it. *)
Definition download (media_type content_type : string) (camera_id : Z)
           (filename : string) : M unit :=
  o <- config_get_camera camera_id ;;
  camera_config <- the_camera o ;;
  if local_motion_camera E camera_config then
    let content := get_media_content camera_config filename media_type in
    name <- str_item camera_config "@name" ;;
    let pretty_filename := name ++ "_" ++ basename filename in
    set_header "Content-Type" content_type ;;
    set_header "Content-Disposition" (attachment pretty_filename) ;;
    finish_content content
  else if remote_camera E camera_config then
    remote_get_media_content camera_config filename media_type
  else
    raise (HTTPError 400 "unknown operation").

Definition PictureHandler_download := download "picture" "image/jpeg".
Definition MovieHandler_download := download "movie" "video/mpeg".
End Downloads.

(** ** PictureHandler.zipped and the download branch of timelapse *)

Section Prepared.
Variable E : Env.
(** mediafiles.get_prepared_cache(key) *)
Variable get_prepared_cache : string -> option string.

(** The double quote, as a string of one character. *)
Definition dquote : string := String (ascii_of_nat 34) EmptyString.

(** ['prepared cache data for key "%s" does not exist' % key] *)
Definition no_prepared_data (key : string) : string :=
  "prepared cache data for key " ++ dquote ++ key ++ dquote ++ " does not exist".

(** The local branch that serves a prepared file: [missing] tells whether
    the cached data count as absent, [extension] and [content_type] are
    those of the file. *)
Definition serve_prepared (missing : option string -> bool)
           (content_type extension : string)
           (camera_config : dict) (group key : string) : M unit :=
  let data := get_prepared_cache key in
  if missing data then
    emit (LogError (no_prepared_data key)) ;;
    raise (HTTPError 404 "no such key")
  else
    name <- str_item camera_config "@name" ;;
    let pretty_filename := sanitize (name ++ "_" ++ group) in
    set_header "Content-Type" content_type ;;
    set_header "Content-Disposition"
               ("attachment; filename=" ++ pretty_filename ++ extension ++ ";") ;;
    finish_content data.

(** [not data] and [data is None]. *)
Definition not_data (data : option string) : bool := negb (truthy (of_opt data)).
Definition is_None (data : option string) : bool :=
  match data with Some _ => false | None => true end.

(** [zipped] below its [auth] wrapper; [remote_get], [local_make] and
    [remote_make] stand for the calls whose answers come later. *)
Definition zipped (remote_get local_make remote_make : dict -> M unit)
           (camera_id : Z) (group : string) (r : request) : M unit :=
  let key := get_argument r "key" in
  o <- config_get_camera camera_id ;;
  camera_config <- the_camera o ;;
  if truthy (of_opt key) then
    if local_motion_camera E camera_config then
      serve_prepared not_data "application/zip" ".zip" camera_config group
                     match key with Some k => k | None => "" end
    else if remote_camera E camera_config then remote_get camera_config
    else raise (HTTPError 400 "unknown operation")
  else
    if local_motion_camera E camera_config then local_make camera_config
    else if remote_camera E camera_config then remote_make camera_config
    else raise (HTTPError 400 "unknown operation").

(** The branch [if key:] of [timelapse], for the key of the request. *)
Definition timelapse_download (remote_get : dict -> M unit)
           (camera_id : Z) (group key : string) : M unit :=
  o <- config_get_camera camera_id ;;
  camera_config <- the_camera o ;;
  if local_motion_camera E camera_config then
    serve_prepared is_None "video/x-msvideo" ".avi" camera_config group key
  else if remote_camera E camera_config then remote_get camera_config
  else raise (HTTPError 400 "unknown operation").
End Prepared.

(** ** ConfigHandler.get_config and ConfigHandler.rem_camera *)

Section GetConfig.
Variable E : Env.
(** config.main_dict_to_ui *)
Variable main_dict_to_ui : dict -> dict.

(** [on_response] of the remote branch of [get_config]. *)
Definition get_config_on_response (local_config : dict)
           (remote_ui_config : option dict) (error : pyval) : M unit :=
  if truthy error then
    finish_json
      [("error", VStr ("Failed to get remote camera configuration for "
                       ++ pretty_camera_url E local_config ++ ": "
                       ++ py_str E error ++ "."))]
  else
    match remote_ui_config with
    | None => raise TypeError
    | Some remote_ui_config =>
        let remote_ui_config := merge_local local_config remote_ui_config in
        let remote_ui_config :=
          set remote_ui_config "device_url"
              (VStr (pretty_camera_url E local_config)) in
        finish_json remote_ui_config
    end.

(** [get_config] below its [auth] wrapper. *)
Definition get_config (camera_id : option Z) : M unit :=
  if match camera_id with Some i => negb (i =? 0) | None => false end then
    let camera_id := match camera_id with Some i => i | None => 0 end in
    camera_ids <- config_get_camera_ids ;;
    if negb (existsb (Z.eqb camera_id) camera_ids) then
      raise (HTTPError 404 "no such camera")
    else
      o <- config_get_camera camera_id ;;
      local_config <- the_camera o ;;
      if local_motion_camera E local_config then
        finish_json (camera_dict_to_ui E local_config)
      else if remote_camera E local_config then
        emit (RemoteGetConfig camera_id local_config)
      else
        ret tt
  else
    main_config <- config_get_main ;;
    finish_json (main_dict_to_ui main_config).
End GetConfig.

Fixpoint zremove {V : Type} (l : list (Z * V)) (k : Z) : list (Z * V) :=
  match l with
  | [] => []
  | (k', v) :: l' => if k' =? k then zremove l' k else (k', v) :: zremove l' k
  end.

(** Modelled from the spec: [remove_camera(id)] of the configuration store
    (module [config], not in handlers.py); the record leaves the store. *)
Definition config_rem_camera (camera_id : Z) : M unit :=
  fun w =>
    (Ok tt, mkWorld (main_config w) (zremove (camera_configs w) camera_id)
                    (tracker w) (trace w)).

(** [rem_camera] below its [auth] wrapper. *)
Definition rem_camera (E : Env) (camera_id : Z) : M unit :=
  o <- config_get_camera camera_id ;;
  camera_config <- the_camera o ;;
  let local := local_motion_camera E camera_config in
  config_rem_camera camera_id ;;
  (if local then emit MotionStop ;; emit MotionStart else ret tt) ;;
  finish_json [].

(** ** Shapes of traces and of bulk commits, for the statements below *)

(** Writes to the configuration store. *)
Definition store_effect (e : effect) : Prop :=
  match e with
  | ConfigSetMain _ | ConfigSetCamera _ _ => True
  | _ => False
  end.

(** The write that a bulk commit makes for the item [it] of a local
    camera, given the records [store]. *)
Definition camera_write (E : Env) (store : list (Z * dict))
           (it : string * dict) : list effect :=
  match py_int E (fst it) with
  | Some camera_id =>
      match zlookup store camera_id with
      | Some local_config =>
          [ConfigSetCamera camera_id
                           (camera_ui_to_dict E (snd it) local_config)]
      | None => []
      end
  | None => []
  end.

(** An item of a bulk commit that names a configured local camera. *)
Definition local_item (E : Env) (store : list (Z * dict))
           (it : string * dict) : Prop :=
  fst it <> "main" /\
  exists camera_id local_config,
    py_int E (fst it) = Some camera_id /\
    zlookup store camera_id = Some local_config /\
    local_motion_camera E local_config = true.

(** The outcome that [finish] writes. *)
Definition outcome (reload reboot : bool) (error : pyval) : effect :=
  Finish (PJson [("reload", VBool reload); ("reboot", VBool reboot);
                 ("error", error)]).

(** The record that [set_main_config] derives again for a local camera. *)
Definition rederived (E : Env) (local_config : dict) : dict :=
  camera_ui_to_dict E (camera_dict_to_ui E local_config) local_config.

(** The main configuration that [set_main_config] stores. *)
Definition new_main_config (E : Env) (old_main_config ui_config : dict) : dict :=
  setdefault (main_ui_to_dict E ui_config) "thread"
             (get_default old_main_config "thread" (VList [])).

(** Whether a credential pair, as [set_main_config] prints it, differs
    between two main configurations. *)
Definition credentials_changed (E : Env) (old_main_config main_config : dict)
           (user_key password_key : string) : bool :=
  negb (credentials E main_config user_key password_key
        =? credentials E old_main_config user_key password_key)%string.

(** Whether a field that asks for a reboot differs. *)
Definition reboot_field_changed (E : Env) (old_main_config main_config : dict)
  : bool :=
  existsb (fun k => negb (py_eq (get old_main_config k) (get main_config k)))
          (additional_reboot_names E ++ ["@admin_password"])%list.

Definition has_local_camera (E : Env) (store : list (Z * dict)) : bool :=
  existsb (fun p => local_motion_camera E (snd p)) store.

(** The order of the listing: by the value under ['id']. *)
Definition id_le (a b : dict) : Prop := py_le (get a "id") (get b "id") = true.

(** * Properties *)

Open Scope list_scope.

(** ** Dictionaries *)

Lemma lookup_set_same (d : dict) (k : string) (v : pyval) :
  lookup (set d k v) k = Some v.
Proof.
  induction d as [| [k' v'] d IH]; simpl.
  - now rewrite String.eqb_refl.
  - destruct (k' =? k)%string eqn:Hk; simpl.
    + now rewrite String.eqb_refl.
    + now rewrite Hk.
Qed.

Lemma lookup_set_other (d : dict) (k k' : string) (v : pyval) :
  k <> k' -> lookup (set d k v) k' = lookup d k'.
Proof.
  intros Hne.
  induction d as [| [k0 v0] d IH]; simpl.
  - destruct (k =? k')%string eqn:Hk; [| reflexivity].
    apply String.eqb_eq in Hk. contradiction.
  - destruct (k0 =? k)%string eqn:Hk; simpl.
    + apply String.eqb_eq in Hk. subst k0.
      destruct (k =? k')%string eqn:Hk'; [| reflexivity].
      apply String.eqb_eq in Hk'. contradiction.
    + now rewrite IH.
Qed.

Lemma has_key_set (d : dict) (k k' : string) (v : pyval) :
  has_key d k' = true -> has_key (set d k v) k' = true.
Proof.
  unfold has_key. intros H.
  destruct (string_dec k k') as [-> | Hne].
  - now rewrite lookup_set_same.
  - now rewrite lookup_set_other.
Qed.

Lemma lookup_In {V : Type} (d : list (string * V)) (k : string) (v : V) :
  lookup d k = Some v -> In (k, v) d.
Proof.
  induction d as [| [k' v'] d IH]; simpl; [discriminate |].
  destruct (k' =? k)%string eqn:Hk.
  - apply String.eqb_eq in Hk. intros [= ->]. left. now subst.
  - intros H. right. now apply IH.
Qed.

Lemma In_lookup {V : Type} (d : list (string * V)) (k : string) (v : V) :
  NoDup (keys d) -> In (k, v) d -> lookup d k = Some v.
Proof.
  induction d as [| [k' v'] d IH]; simpl; [contradiction |].
  intros Hnd [Heq | Hin].
  - injection Heq as -> ->. now rewrite String.eqb_refl.
  - inversion Hnd as [| ? ? Hnotin Hnd']; subst.
    destruct (k' =? k)%string eqn:Hk.
    + apply String.eqb_eq in Hk. subst k'.
      exfalso. apply Hnotin. unfold keys.
      change k with (fst (k, v)). now apply in_map.
    + now apply IH.
Qed.

(** ** The handler monad *)

Lemma extend_nil (w : world) : extend w [] = w.
Proof. destruct w. unfold extend. simpl. now rewrite app_nil_r. Qed.

Lemma extend_extend (w : world) (es es' : list effect) :
  extend (extend w es) es' = extend w (es ++ es').
Proof. unfold extend. simpl. now rewrite app_assoc. Qed.

Lemma emit_extend (e : effect) (w : world) : emit e w = (Ok tt, extend w [e]).
Proof. reflexivity. Qed.

Lemma extend_inj (w : world) (es es' : list effect) :
  extend w es = extend w es' -> es = es'.
Proof.
  unfold extend. intros H. injection H as H.
  now apply app_inv_head in H.
Qed.

Lemma bind_ok {A B : Type} (m : M A) (f : A -> M B) (w w' : world) (a : A) :
  m w = (Ok a, w') -> bind m f w = f a w'.
Proof. unfold bind. now intros ->. Qed.

Lemma bind_raise {A B : Type} (m : M A) (f : A -> M B) (w w' : world) (e : exn) :
  m w = (Raise e, w') -> bind m f w = (Raise e, w').
Proof. unfold bind. now intros ->. Qed.

(** ** C1: the order in which a request is authenticated *)

Section AuthProperties.
Variable E : Env.

Lemma credentials_match_spec (cfg : dict) (uk pk : string) (r : request) :
  credentials_match E cfg uk pk r = true <->
  Spec.matches_credential E cfg r uk pk.
Proof.
  unfold credentials_match, Spec.matches_credential, Spec.supplied_username,
    signature_of.
  now rewrite andb_true_iff.
Qed.

Lemma no_username_spec (r : request) :
  negb (truthy (of_opt (get_argument r "_username"))) = true <->
  Spec.no_username r.
Proof.
  unfold Spec.no_username, Spec.supplied_username.
  destruct (get_argument r "_username") as [u |]; simpl.
  - rewrite negb_involutive. split.
    + intros H. apply String.eqb_eq in H. right. now subst.
    + intros [H | H]; [discriminate |]. injection H as ->. reflexivity.
  - split; auto.
Qed.

Lemma explicit_login_spec (r : request) (u : string) :
  get_argument r "_username" = Some u ->
  (truthy (VStr u) && negb (py_eq (VStr u) (VStr "_"))
     && flag_argument r "_login" = true <-> Spec.explicit_login r u).
Proof.
  intros Hu. unfold Spec.explicit_login, Spec.supplied_username, flag_argument.
  rewrite !andb_true_iff, !negb_true_iff. simpl.
  rewrite negb_true_iff, !String.eqb_neq.
  split.
  - intros [[H1 H2] H3]. repeat split; auto.
    destruct (get_argument r "_login") as [v |]; [| discriminate].
    apply String.eqb_eq in H3. now subst.
  - intros (_ & H1 & H2 & H3). rewrite H3. repeat split; auto.
Qed.

(** What the code answers satisfies the resolution order. *)
Lemma get_current_user_sound (r : request) (w : world) :
  exists user log,
    get_current_user E r w = (Ok user, extend w log) /\
    Spec.authenticate E (main_config w) r user log.
Proof.
  unfold get_current_user, bind, read.
  destruct (credentials_match E (main_config w) "@admin_username"
                              "@admin_password" r) eqn:Ha.
  { exists (Some "admin"), []. rewrite extend_nil. split; [reflexivity |].
    apply Spec.auth_admin. now apply credentials_match_spec. }
  assert (Hna : ~ Spec.matches_credential E (main_config w) r
                  "@admin_username" "@admin_password").
  { intros H. apply credentials_match_spec in H. congruence. }
  destruct (negb (truthy (of_opt (get_argument r "_username")))
            && negb (truthy (get (main_config w) "@normal_password"))) eqn:Ho.
  { exists (Some "normal"), []. rewrite extend_nil. split; [reflexivity |].
    apply andb_true_iff in Ho as [Ho1 Ho2].
    apply Spec.auth_open; auto.
    - now apply no_username_spec.
    - unfold Spec.normal_password_unset. now apply negb_true_iff in Ho2. }
  assert (Hno : ~ (Spec.no_username r /\
                   Spec.normal_password_unset (main_config w))).
  { intros [H1 H2]. apply no_username_spec in H1.
    unfold Spec.normal_password_unset in H2.
    rewrite H1, H2 in Ho. discriminate. }
  destruct (credentials_match E (main_config w) "@normal_username"
                              "@normal_password" r) eqn:Hn.
  { exists (Some "normal"), []. rewrite extend_nil. split; [reflexivity |].
    apply Spec.auth_normal; auto. now apply credentials_match_spec. }
  assert (Hnn : ~ Spec.matches_credential E (main_config w) r
                  "@normal_username" "@normal_password").
  { intros H. apply credentials_match_spec in H. congruence. }
  destruct (get_argument r "_username") as [u |] eqn:Hu.
  - change (of_opt (Some u)) with (VStr u).
    destruct (truthy (VStr u) && negb (py_eq (VStr u) (VStr "_"))
              && flag_argument r "_login") eqn:Hl.
    + exists None, [LogError ("authentication failed for user " ++ u)].
      split; [reflexivity |].
      apply Spec.auth_failed_login; auto.
      now apply explicit_login_spec.
    + exists None, []. rewrite extend_nil. split; [reflexivity |].
      apply Spec.auth_none; auto.
      intros u' H.
      assert (u' = u).
      { destruct H as [H _]. unfold Spec.supplied_username in H. congruence. }
      subst u'. apply explicit_login_spec in H; [| assumption]. congruence.
  - simpl. exists None, []. rewrite extend_nil. split; [reflexivity |].
    apply Spec.auth_none; auto.
    intros u' [H _]. unfold Spec.supplied_username in H. congruence.
Qed.

(** The resolution order admits one answer only. *)
Lemma authenticate_functional (cfg : dict) (r : request)
      (u1 u2 : option string) (l1 l2 : list effect) :
  Spec.authenticate E cfg r u1 l1 -> Spec.authenticate E cfg r u2 l2 ->
  u1 = u2 /\ l1 = l2.
Proof.
  intros H1 H2.
  destruct H1; destruct H2; auto; try tauto;
    try match goal with
        | Hall : forall u, ~ Spec.explicit_login _ u,
          Hex : Spec.explicit_login _ _ |- _ => now destruct (Hall _ Hex)
        end.
  split; [reflexivity |].
  match goal with
  | Ha : Spec.explicit_login _ ?a, Hb : Spec.explicit_login _ ?b |- _ =>
      assert (Heq : a = b)
        by (destruct Ha as [Ha _]; destruct Hb as [Hb _]; congruence)
  end.
  now rewrite Heq.
Qed.
End AuthProperties.

(** C1.  [get_current_user] answers a role and logs exactly as the
    resolution order says: admin on a match with the admin credential; else
    normal when no username is supplied and the normal password is empty or
    unset; else normal on a match with the normal credential; else, for a
    username other than ['_'] supplied with the login flag, the failure is
    logged and the answer is [None]; otherwise [None]. *)
Theorem get_current_user_resolution (E : Env) (r : request) (w : world)
        (user : option string) (log : list effect) :
  Spec.authenticate E (main_config w) r user log <->
  get_current_user E r w = (Ok user, extend w log).
Proof.
  destruct (get_current_user_sound E r w) as (user' & log' & Hrun & Hspec).
  split.
  - intros H.
    destruct (authenticate_functional E _ _ _ _ _ _ H Hspec) as [-> ->].
    exact Hrun.
  - intros H. rewrite Hrun in H.
    assert (Hu : user' = user) by congruence.
    assert (Hw : extend w log' = extend w log) by congruence.
    apply extend_inj in Hw. now subst.
Qed.

(** ** C2: the authorization guard *)

(** C2.  Under the guard, a caller with no role, or one who is not admin
    while admin is required or elevation is requested with [_admin=true],
    gets exactly the JSON object with [error] "unauthorized" and the guard's
    [prompt], whatever the handler body is; any other caller gets the
    handler body. *)
Theorem auth_guard (E : Env) (admin prompt : bool) (func : request -> M unit)
        (r : request) (w : world) :
  exists user log,
    get_current_user E r w = (Ok user, extend w log) /\
    auth E admin prompt func r w =
      if Spec.unauthorized user admin (flag_argument r "_admin")
      then (Ok tt, extend w (log ++ Spec.unauthorized_response prompt))
      else func r (extend w log).
Proof.
  destruct (get_current_user_sound E r w) as (user & log & Hrun & _).
  exists user, log. split; [exact Hrun |].
  unfold auth. rewrite (bind_ok _ _ _ _ _ Hrun).
  unfold Spec.unauthorized.
  destruct user as [u |].
  - destruct (string_dec u "admin") as [-> | Hne].
    + reflexivity.
    + apply String.eqb_neq in Hne. rewrite Hne. simpl.
      destruct (admin || flag_argument r "_admin"); [| reflexivity].
      unfold finish_json, set_header, bind. rewrite !emit_extend.
      now rewrite !extend_extend.
  - unfold finish_json, set_header, bind. rewrite !emit_extend.
    now rewrite !extend_extend.
Qed.

(** ** Handlers only add to the trace *)

Section Adds.
Context {A : Type} (P : effect -> Prop).

Lemma adds_ret (a : A) : adds P (ret a).
Proof. intros w r w' [= <- <-]. exists []. now rewrite app_nil_r. Qed.

Lemma adds_raise (e : exn) : adds P (@raise A e).
Proof. intros w r w' [= <- <-]. exists []. now rewrite app_nil_r. Qed.

Lemma adds_read (f : world -> A) : adds P (read f).
Proof. intros w r w' [= <- <-]. exists []. now rewrite app_nil_r. Qed.

Lemma adds_bind {B : Type} (m : M B) (f : B -> M A) :
  adds P m -> (forall b, adds P (f b)) -> adds P (bind m f).
Proof.
  intros Hm Hf w r w'. unfold bind.
  destruct (m w) as [[b | e] w1] eqn:Hmw; intros H.
  - destruct (Hm _ _ _ Hmw) as (es1 & H1 & HP1).
    destruct (Hf b _ _ _ H) as (es2 & H2 & HP2).
    exists (es1 ++ es2). split.
    + now rewrite H2, H1, app_assoc.
    + apply Forall_app. now split.
  - injection H as <- <-.
    destruct (Hm _ _ _ Hmw) as (es1 & H1 & HP1).
    exists es1. now split.
Qed.
End Adds.

Section AddsPrimitives.
Variable P : effect -> Prop.

Lemma adds_emit (e : effect) : P e -> adds P (emit e).
Proof. intros HP w r w' [= <- <-]. exists [e]. split; auto. Qed.

Lemma adds_config_set_main (d : dict) :
  P (ConfigSetMain d) -> adds P (config_set_main d).
Proof. intros HP w r w' [= <- <-]. exists [ConfigSetMain d]. split; auto. Qed.

Lemma adds_config_set_camera (camera_id : Z) (d : dict) :
  P (ConfigSetCamera camera_id d) -> adds P (config_set_camera camera_id d).
Proof.
  intros HP w r w' [= <- <-]. exists [ConfigSetCamera camera_id d].
  split; auto.
Qed.

Lemma adds_item (d : dict) (k : string) : adds P (item d k).
Proof. unfold item. destruct (lookup d k); [apply adds_ret | apply adds_raise]. Qed.

Lemma adds_the_camera (o : option dict) : adds P (the_camera o).
Proof. destruct o; [apply adds_ret | apply adds_raise]. Qed.
End AddsPrimitives.

Create HintDb adds.
#[export] Hint Resolve adds_ret adds_raise adds_read adds_item adds_the_camera
  : adds.

Ltac adds_side := first [exact I | reflexivity | assumption].

Ltac adds_step :=
  match goal with
  | |- adds _ (bind _ _) => apply adds_bind; [| intros ?]
  | |- adds _ (if ?b then _ else _) => destruct b
  | |- adds _ (match ?o with Some _ => _ | None => _ end) => destruct o
  | |- adds _ (emit _) => apply adds_emit; adds_side
  | |- adds _ (set_header _ _) => apply adds_emit; adds_side
  | |- adds _ (config_set_main _) => apply adds_config_set_main; adds_side
  | |- adds _ (config_set_camera _ _) => apply adds_config_set_camera; adds_side
  | |- adds _ _ => solve [auto with adds]
  end.

Ltac adds_auto := repeat adds_step.

Section SetConfigAdds.
Variable E : Env.
Variable P : effect -> Prop.
Hypothesis P_set_main : forall d, P (ConfigSetMain d).
Hypothesis P_set_camera : forall i d, P (ConfigSetCamera i d).
Hypothesis P_motion : P MotionStop /\ P MotionStart /\ P SmbUpdateMounts.
Hypothesis P_reboot : forall n, P (AddTimeoutReboot n).
Hypothesis P_finish : forall p, P (Finish p).

Lemma adds_reconfigure (ids : list Z) (restart : bool) :
  adds P (reconfigure_local_cameras E ids restart).
Proof.
  revert restart. induction ids as [| camera_id ids IH]; intros restart; simpl.
  - apply adds_ret.
  - unfold config_get_camera.
    adds_auto; try apply IH. apply adds_config_set_camera, P_set_camera.
Qed.

Lemma adds_set_main_config (ui_config : dict) :
  adds P (set_main_config E ui_config).
Proof.
  unfold set_main_config, config_get_main, config_get_camera_ids.
  adds_auto; try apply adds_reconfigure.
  apply adds_config_set_main, P_set_main.
Qed.

Lemma adds_finish (c : cells) : adds P (finish E c).
Proof.
  destruct P_motion as (? & ? & ?).
  unfold finish, finish_tail, restart_motion.
  adds_auto; apply adds_emit; auto.
Qed.

Lemma adds_check_finished (len : nat) (e : pyval) (r : bool) (c : cells) :
  adds P (check_finished E len e r c).
Proof. unfold check_finished. adds_step; [apply adds_finish | apply adds_ret]. Qed.

Lemma adds_on_finish_single (e : pyval) (r : bool) (c : cells) :
  adds P (on_finish_single E e r c).
Proof. unfold on_finish_single. apply adds_finish. Qed.

Lemma adds_set_camera_config (camera_ids : list Z) (camera_id : Z)
      (ui_config : dict) (on_finish : on_finish_t) (c : cells) :
  (forall l u, P (RemoteSetConfig l u)) ->
  (forall e r c, adds P (on_finish e r c)) ->
  adds P (set_camera_config E camera_ids camera_id ui_config on_finish c).
Proof.
  intros Hp Hf. unfold set_camera_config, config_get_camera.
  adds_auto; try apply Hf;
    first [apply adds_config_set_camera, P_set_camera | apply adds_emit, Hp].
Qed.

Lemma adds_set_item (camera_ids : list Z) (len : nat) (it : string * dict)
      (c : cells) :
  (forall l u, P (RemoteSetConfig l u)) ->
  adds P (set_item E camera_ids len it c).
Proof.
  intros Hp. destruct it as [key cfg]. unfold set_item.
  destruct (key =? "main")%string.
  - apply adds_bind; [apply adds_set_main_config |].
    intros res. apply adds_check_finished.
  - destruct (py_int E key); [| apply adds_raise].
    apply adds_set_camera_config; [exact Hp |].
    intros. apply adds_check_finished.
Qed.

Lemma adds_set_items (camera_ids : list Z) (len : nat)
      (items : list (string * dict)) (c : cells) :
  (forall l u, P (RemoteSetConfig l u)) ->
  adds P (set_items E camera_ids len items c).
Proof.
  intros Hp. revert c. induction items as [| it items IH]; intros c; simpl.
  - apply adds_ret.
  - apply adds_bind; [now apply adds_set_item | intros c'; apply IH].
Qed.
End SetConfigAdds.

(** ** C3: the main configuration comes first *)

Section SortByBool.
Context {A : Type} (key : A -> bool).

Lemma insert_by_false (x : A) (l : list A) :
  key x = false -> insert_by implb key x l = x :: l.
Proof. intros H. destruct l; simpl; [reflexivity |]. now rewrite H. Qed.

Lemma insert_by_true (x : A) (lf lt : list A) :
  key x = true ->
  Forall (fun y => key y = false) lf ->
  Forall (fun y => key y = true) lt ->
  insert_by implb key x (lf ++ lt) = lf ++ x :: lt.
Proof.
  intros Hx Hf Ht. induction Hf as [| y lf Hy Hf IH]; simpl.
  - destruct Ht as [| z lt Hz Ht]; simpl; [reflexivity |].
    now rewrite Hx, Hz.
  - now rewrite Hx, Hy, IH.
Qed.

(** Sorting by a boolean key puts the items whose key is [False] first
    and keeps the order within both groups. *)
Lemma sort_by_bool (l : list A) :
  sort_by implb key l = filter (fun x => negb (key x)) l ++ filter key l.
Proof.
  induction l as [| x l IH]; [reflexivity |].
  change (sort_by implb key (x :: l))
    with (insert_by implb key x (sort_by implb key l)).
  rewrite IH. simpl filter.
  destruct (key x) eqn:Hx; simpl.
  - apply insert_by_true; auto.
    + apply Forall_forall. intros y Hy. apply filter_In in Hy as [_ Hy].
      now apply negb_true_iff in Hy.
    + apply Forall_forall. intros y Hy. now apply filter_In in Hy as [_ Hy].
  - now apply insert_by_false.
Qed.
End SortByBool.

Lemma no_main_filter (items : list (string * dict)) :
  ~ In "main" (keys items) -> filter (fun it => negb (not_main it)) items = [].
Proof.
  induction items as [| [k v] items IH]; simpl; [reflexivity |].
  intros H. unfold not_main at 1. simpl.
  destruct (k =? "main")%string eqn:Hk.
  - apply String.eqb_eq in Hk. exfalso. apply H. now left.
  - simpl. apply IH. intros Hin. apply H. now right.
Qed.

Lemma main_filter (items : list (string * dict)) (cfg : dict) :
  NoDup (keys items) -> lookup items "main" = Some cfg ->
  filter (fun it => negb (not_main it)) items = [("main", cfg)].
Proof.
  induction items as [| [k v] items IH]; simpl; [discriminate |].
  intros Hnd Hl. inversion Hnd as [| ? ? Hnotin Hnd']; subst.
  unfold not_main at 1. simpl.
  destruct (k =? "main")%string eqn:Hk; simpl.
  - apply String.eqb_eq in Hk. subst k. injection Hl as ->.
    f_equal. now apply no_main_filter.
  - now apply IH.
Qed.

(** C3.  In a bulk commit whose mapping holds a main entry, whatever the
    order of the mapping's items, the main entry is processed first and to
    its end; the camera entries run from the world that it leaves, and all
    their effects come after its own. *)
Theorem main_config_first (E : Env) (items : list (string * dict))
        (cfg : dict) (w : world) :
  NoDup (keys items) ->
  lookup items "main" = Some cfg ->
  let camera_ids := map fst (camera_configs w) in
  let len := List.length items in
  let cams := filter not_main items in
  sort_by implb not_main items = ("main", cfg) :: cams /\
  Forall (fun it => fst it <> "main") cams /\
  set_config E (Some 0) (ManyConfigs items) w =
    (c <- set_item E camera_ids len ("main", cfg) initial_cells ;;
     set_items E camera_ids len cams c) w /\
  (forall c1 w1,
      set_item E camera_ids len ("main", cfg) initial_cells w = (Ok c1, w1) ->
      exists es,
        set_config E (Some 0) (ManyConfigs items) w =
          set_items E camera_ids len cams c1 w1 /\
        trace (snd (set_config E (Some 0) (ManyConfigs items) w)) =
          trace w1 ++ es).
Proof.
  intros Hnd Hmain camera_ids len cams.
  assert (Hsort : sort_by implb not_main items = ("main", cfg) :: cams).
  { rewrite sort_by_bool. now rewrite (main_filter _ _ Hnd Hmain). }
  assert (Hrun : set_config E (Some 0) (ManyConfigs items) w =
                 (c <- set_item E camera_ids len ("main", cfg) initial_cells ;;
                  set_items E camera_ids len cams c) w).
  { unfold set_config, config_get_camera_ids.
    unfold bind at 1. unfold read. simpl (0 =? 0).
    cbv iota. rewrite Hsort.
    assert (Hlen : (List.length items <> 0)%nat).
    { destruct items; [discriminate | simpl; lia]. }
    destruct (1 <? List.length items)%nat.
    - reflexivity.
    - apply Nat.eqb_neq in Hlen. rewrite Hlen. reflexivity. }
  split; [exact Hsort |]. split; [| split; [exact Hrun |]].
  - apply Forall_forall. intros [k v] Hin. apply filter_In in Hin as [_ Hk].
    unfold not_main in Hk. simpl in *.
    apply negb_true_iff in Hk. now apply String.eqb_neq in Hk.
  - intros c1 w1 Hmainrun.
    rewrite Hrun. rewrite (bind_ok _ _ _ _ _ Hmainrun).
    destruct (set_items E camera_ids len cams c1 w1) as [res w2] eqn:Hcams.
    assert (Hadds : adds (fun _ => True) (set_items E camera_ids len cams c1))
      by (apply adds_set_items; auto).
    destruct (Hadds _ _ _ Hcams) as (es & Hes & _).
    exists es. split; [reflexivity | exact Hes].
Qed.

Lemma main_config_first_witness :
  let items := [("3", [("enabled", VBool true)]);
                ("main", [("admin_password", VStr "newpw")]);
                ("5", [("enabled", VBool false)])] in
  sort_by implb not_main items =
    [("main", [("admin_password", VStr "newpw")]);
     ("3", [("enabled", VBool true)]);
     ("5", [("enabled", VBool false)])].
Proof.
  intros items.
  refine (proj1 (main_config_first (Example.env false) items
                   [("admin_password", VStr "newpw")] Example.world0 _ _)).
  - unfold keys. simpl. repeat constructor; simpl; intuition discriminate.
  - reflexivity.
Defined.

(** ** C4 and C5: what a bulk commit of the main configuration does *)

Section BulkMain.
Variable E : Env.

Lemma restart_motion_run (w : world) :
  restart_motion E w = (Ok tt, extend w (restart_effects E)).
Proof.
  unfold restart_motion, restart_effects, bind. rewrite emit_extend.
  destruct (SMB_SHARES E).
  - rewrite emit_extend.
    destruct (update_mounts_start E).
    + rewrite emit_extend. now rewrite !extend_extend.
    + unfold ret. now rewrite !extend_extend.
  - rewrite emit_extend. now rewrite !extend_extend.
Qed.

(** A bulk commit that holds the main entry only, in terms of what
    [set_main_config] answers. *)
Lemma bulk_main_only (cfg : dict) (w w1 : world) (res : main_result) :
  set_main_config E cfg w = (Ok res, w1) ->
  set_config E (Some 0) (ManyConfigs [("main", cfg)]) w =
    finish E (mkCells (res_reload res) (res_reboot res)
                      (res_restart res || res_reload res) VNone 1) w1.
Proof.
  intros Hmain.
  remember (set_main_config E cfg) as m eqn:Hm.
  remember (finish E) as fin eqn:Hfin.
  unfold set_config, config_get_camera_ids, read, bind, ret. simpl.
  unfold set_item, bind, check_finished. simpl. rewrite <- Hm, <- Hfin.
  rewrite Hmain. simpl. rewrite !orb_false_r.
  destruct (fin _ w1) as [[c | e] w2]; reflexivity.
Qed.
End BulkMain.

(** Below the last completion [check_finished] only counts and
    accumulates; the completion that reaches the number of items runs
    [finish]. *)
Lemma check_finished_counts (E : Env) (len : nat) (e : pyval) (r : bool)
      (c : cells) (w : world) :
  let c' := mkCells (reload c) (reboot c) (restart c || r)
                    (py_or (error c) e) (S (so_far c)) in
  ((S (so_far c) < len)%nat -> check_finished E len e r c w = (Ok c', w)) /\
  ((len <= S (so_far c))%nat -> check_finished E len e r c w = finish E c' w).
Proof.
  intros c'. unfold check_finished.
  change (so_far (mkCells (reload c) (reboot c) (restart c || r)
                          (py_or (error c) e) (S (so_far c))))
    with (S (so_far c)).
  fold c'. split; intros H.
  - apply Nat.leb_gt in H. now rewrite H.
  - apply Nat.leb_le in H. now rewrite H.
Qed.

(** C4, at the input where the code departs from it.  A bulk commit of the
    main entry alone, whose processing reports [reload] and does not report
    [restart], ends with the aggregate [restart] set: the code hands
    [reload] to [check_finished] in the place of the restart flag. *)
Theorem bulk_restart_without_report (E : Env) (cfg : dict) (w w1 : world)
        (res : main_result) :
  set_main_config E cfg w = (Ok res, w1) ->
  res_reload res = true ->
  res_restart res = false ->
  exists c w2,
    set_config E (Some 0) (ManyConfigs [("main", cfg)]) w = (Ok c, w2) /\
    restart c = true.
Proof.
  intros Hmain Hreload Hrestart.
  rewrite (bulk_main_only E _ _ _ _ Hmain), Hreload, Hrestart.
  unfold finish, finish_tail. simpl.
  destruct (res_reboot res), (ENABLE_REBOOT E); simpl;
    unfold bind; rewrite ?emit_extend, ?restart_motion_run, ?emit_extend;
    eexists; eexists; (split; [reflexivity | reflexivity]).
Qed.

Lemma bulk_restart_without_report_witness :
  exists c w2,
    set_config (Example.env false) (Some 0)
               (ManyConfigs [("main", [("admin_password", VStr "newpw")])])
               Example.world0 = (Ok c, w2) /\
    restart c = true.
Proof.
  apply (bulk_restart_without_report (Example.env false)
           [("admin_password", VStr "newpw")] Example.world0
           (snd (set_main_config (Example.env false)
                   [("admin_password", VStr "newpw")] Example.world0))
           (mkMainResult true false false)).
  - reflexivity.
  - reflexivity.
  - reflexivity.
Defined.

(** C5, at the input where the code departs from it.  With host reboot
    disabled, a bulk commit of a main entry whose processing answers reload
    true, reboot false and restart false stops and starts the motion daemon
    before it writes the outcome. *)
Theorem admin_password_commit_restarts_daemon (E : Env) (cfg : dict)
        (w w1 : world) :
  ENABLE_REBOOT E = false ->
  set_main_config E cfg w = (Ok (mkMainResult true false false), w1) ->
  set_config E (Some 0) (ManyConfigs [("main", cfg)]) w =
    (Ok (mkCells true false true VNone 1),
     extend w1 (restart_effects E ++
                [Finish (PJson [("reload", VBool true); ("reboot", VBool false);
                                ("error", VNone)])])) /\
  In MotionStop (trace (snd (set_config E (Some 0)
                                        (ManyConfigs [("main", cfg)]) w))).
Proof.
  intros Hreboot Hmain.
  assert (Hrun : set_config E (Some 0) (ManyConfigs [("main", cfg)]) w =
    (Ok (mkCells true false true VNone 1),
     extend w1 (restart_effects E ++
                [Finish (PJson [("reload", VBool true); ("reboot", VBool false);
                                ("error", VNone)])]))).
  { rewrite (bulk_main_only E _ _ _ _ Hmain). simpl.
    unfold finish, finish_tail. simpl. unfold bind.
    rewrite restart_motion_run, emit_extend. now rewrite extend_extend. }
  split; [exact Hrun |].
  rewrite Hrun. simpl. apply in_or_app. right.
  unfold restart_effects. now left.
Qed.

Lemma admin_password_commit_restarts_daemon_witness :
  In MotionStop
     (trace (snd (set_config (Example.env false) (Some 0)
                    (ManyConfigs [("main", [("admin_password", VStr "newpw")])])
                    Example.world0))).
Proof.
  refine (proj2 (admin_password_commit_restarts_daemon (Example.env false)
                   [("admin_password", VStr "newpw")] Example.world0
                   (snd (set_main_config (Example.env false)
                           [("admin_password", VStr "newpw")] Example.world0))
                   _ _)).
  - reflexivity.
  - reflexivity.
Defined.

(** With host reboot enabled, the same commit schedules the reboot two
    seconds ahead and leaves the daemon alone. *)
Lemma admin_password_commit_reboots (E : Env) (cfg : dict) (w w1 : world) :
  ENABLE_REBOOT E = true ->
  set_main_config E cfg w = (Ok (mkMainResult true true false), w1) ->
  set_config E (Some 0) (ManyConfigs [("main", cfg)]) w =
    (Ok (mkCells true true true VNone 1),
     extend w1 [AddTimeoutReboot 2;
                Finish (PJson [("reload", VBool false); ("reboot", VBool true);
                               ("error", VNone)])]).
Proof.
  intros Hreboot Hmain.
  rewrite (bulk_main_only E _ _ _ _ Hmain). simpl.
  unfold finish. simpl. rewrite Hreboot. unfold bind.
  rewrite !emit_extend. now rewrite extend_extend.
Qed.

(** ** C6: a configuration update of a remote camera *)

(** Two payloads that carry more than the enabled flag and are not pushed
    to the peer: one with the enabled flag and a frame rate and no name;
    one with a name and no enabled flag, which is refused with a KeyError
    before anything is written. *)
Lemma remote_update_without_name_not_pushed :
  let E := Example.env false in
  let no_name := [("enabled", VBool false); ("framerate", VInt 5)] in
  let no_flag := [("name", VStr "gate")] in
  let run := fun ui_config =>
    set_camera_config E [1; 3; 5] 3 ui_config (on_finish_single E)
                      initial_cells Example.world0 in
  (Spec.carries_more_than_enabled no_name = true /\
   existsb is_remote_write (trace (snd (run no_name))) = false) /\
  (Spec.carries_more_than_enabled no_flag = true /\
   run no_flag = (Raise (KeyError "enabled"), Example.world0)).
Proof. repeat split. Qed.

(** C6, amended.  An update that [set_config] applies to a configured
    remote camera: a payload without the enabled flag is refused with a
    KeyError and nothing is written or pushed; otherwise the camera's record
    is written to the store with its ['@enabled'] replaced by the payload's
    flag and nothing else changed.  The payload is pushed to the peer if and
    only if it has the enabled flag and a ['name'] field, and what is pushed
    has [enabled] true. *)
Theorem set_camera_config_remote (E : Env) (camera_ids : list Z) (camera_id : Z)
        (ui_config local_config : dict)
        (on_finish : on_finish_t) (c : cells) (w : world) :
  existsb (Z.eqb camera_id) camera_ids = true ->
  zlookup (camera_configs w) camera_id = Some local_config ->
  local_motion_camera E local_config = false ->
  remote_camera E local_config = true ->
  (on_finish = on_finish_single E \/
   exists len, on_finish = check_finished E len) ->
  let out := set_camera_config E camera_ids camera_id ui_config on_finish c w in
  match lookup ui_config "enabled" with
  | None => out = (Raise (KeyError "enabled"), w)
  | Some enabled =>
      let mirror := set local_config "@enabled" enabled in
      let pushed := set ui_config "enabled" (VBool true) in
      let w1 := mkWorld (main_config w)
                        (zset (camera_configs w) camera_id mirror)
                        (tracker w)
                        (trace w ++ [ConfigSetCamera camera_id mirror]) in
      (forall k, k <> "@enabled" -> lookup mirror k = lookup local_config k) /\
      lookup mirror "@enabled" = Some enabled /\
      out = (if has_key ui_config "name"
             then (Ok c, extend w1 [RemoteSetConfig mirror pushed])
             else on_finish VNone false c w1) /\
      lookup pushed "enabled" = Some (VBool true)
  end /\
  exists es,
    trace (snd out) = trace w ++ es /\
    existsb is_remote_write es =
      has_key ui_config "enabled" && has_key ui_config "name".
Proof.
  intros Hin Hcam Hlocal Hremote Hcaller out.
  assert (Hfin : forall e r c, adds local_effect (on_finish e r c)).
  { intros e r c0. destruct Hcaller as [-> | [len ->]].
    - apply adds_on_finish_single; try reflexivity. repeat split.
    - apply adds_check_finished; try reflexivity. repeat split. }
  assert (Hrun : out =
    match lookup ui_config "enabled" with
    | None => (Raise (KeyError "enabled"), w)
    | Some enabled =>
        let mirror := set local_config "@enabled" enabled in
        let w1 := mkWorld (main_config w)
                          (zset (camera_configs w) camera_id mirror)
                          (tracker w)
                          (trace w ++ [ConfigSetCamera camera_id mirror]) in
        if has_key ui_config "name"
        then (Ok c, extend w1 [RemoteSetConfig mirror
                                 (set ui_config "enabled" (VBool true))])
        else on_finish VNone false c w1
    end).
  { unfold out, set_camera_config. rewrite Hin.
    unfold config_get_camera, read, the_camera, item, config_set_camera,
      bind, ret.
    cbn [negb]. cbv beta iota. rewrite Hcam. cbv beta iota.
    rewrite Hlocal, Hremote.
    destruct (lookup ui_config "enabled") as [enabled |]; [| reflexivity].
    cbv beta iota zeta.
    destruct (has_key ui_config "name"); [| reflexivity].
    now rewrite emit_extend. }
  destruct (lookup ui_config "enabled") as [enabled |] eqn:Hen.
  - assert (Hk : has_key ui_config "enabled" = true)
      by (unfold has_key; now rewrite Hen).
    rewrite Hk. cbv zeta in Hrun. split.
    + cbv zeta. split; [| split; [| split]].
      * intros k Hne. apply lookup_set_other. congruence.
      * apply lookup_set_same.
      * exact Hrun.
      * apply lookup_set_same.
    + rewrite Hrun. simpl andb. destruct (has_key ui_config "name").
      * eexists. split; [simpl; rewrite <- app_assoc; reflexivity |].
        reflexivity.
      * match goal with
        | |- context [on_finish VNone false c ?w0] =>
            destruct (on_finish VNone false c w0) as [res w2] eqn:Hcont;
            destruct (Hfin _ _ _ _ _ _ Hcont) as (es & Hes & Hlocal_es)
        end.
        exists (ConfigSetCamera camera_id (set local_config "@enabled" enabled)
                  :: es).
        split; [simpl in *; rewrite Hes, <- app_assoc; reflexivity |].
        simpl. clear Hes.
        induction Hlocal_es as [| e es He Hes IH]; [reflexivity |].
        simpl. now rewrite He, IH.
  - assert (Hk : has_key ui_config "enabled" = false)
      by (unfold has_key; now rewrite Hen).
    rewrite Hk. split; [exact Hrun |].
    rewrite Hrun. exists []. simpl. now rewrite app_nil_r.
Qed.

Lemma set_camera_config_remote_witness :
  let E := Example.env false in
  let ui_config := [("enabled", VBool false); ("name", VStr "gate")] in
  let out := set_camera_config E [1; 3; 5] 3 ui_config (on_finish_single E)
                               initial_cells Example.world0 in
  exists es,
    trace (snd out) = trace Example.world0 ++ es /\
    existsb is_remote_write es = true.
Proof.
  intros E ui_config out.
  refine (proj2 (set_camera_config_remote E [1; 3; 5] 3 ui_config
                   (Example.remote_cam 3 true) (on_finish_single E)
                   initial_cells Example.world0 _ _ _ _ _)).
  - reflexivity.
  - reflexivity.
  - reflexivity.
  - reflexivity.
  - left. reflexivity.
Defined.

(** ** C7: reconciliation of the enabled flag during the local listing *)

Lemma zlookup_zset_same {V : Type} (l : list (Z * V)) (k : Z) (v : V) :
  zlookup (zset l k v) k = Some v.
Proof.
  induction l as [| [k' v'] l IH]; simpl.
  - now rewrite Z.eqb_refl.
  - destruct (k' =? k) eqn:Hk; simpl.
    + now rewrite Z.eqb_refl.
    + now rewrite Hk.
Qed.

Section MergeLocal.
Variables (k : string) (v : pyval).

(** Once the merged view holds [v] under [k], items of the local record
    that all carry [v] under the keys that strip to [k] keep it so. *)
Lemma merge_local_keeps (local_config r : dict) :
  (forall k' v', In (k', v') local_config -> strip_at k' = k -> v' = v) ->
  lookup r k = Some v ->
  lookup (merge_local local_config r) k = Some v.
Proof.
  unfold merge_local. revert r.
  induction local_config as [| [k0 v0] l IH]; intros r Hall Hr; simpl.
  - exact Hr.
  - apply IH.
    + intros k' v' Hin. apply Hall. now right.
    + destruct (string_dec (strip_at k0) k) as [Heq | Hne].
      * rewrite (Hall k0 v0 (or_introl eq_refl) Heq), <- Heq.
        apply lookup_set_same.
      * now rewrite lookup_set_other.
Qed.

Lemma merge_local_sets (local_config r : dict) :
  (forall k' v', In (k', v') local_config -> strip_at k' = k -> v' = v) ->
  (exists k' v', In (k', v') local_config /\ strip_at k' = k) ->
  lookup (merge_local local_config r) k = Some v.
Proof.
  revert r.
  induction local_config as [| [k0 v0] l IH]; intros r Hall (k' & v' & Hin & Hk').
  - destruct Hin.
  - destruct (string_dec (strip_at k0) k) as [Heq | Hne].
    + change (merge_local ((k0, v0) :: l) r)
        with (merge_local l (set r (strip_at k0) v0)).
      apply merge_local_keeps.
      * intros k1 v1 Hin1. apply Hall. now right.
      * rewrite (Hall k0 v0 (or_introl eq_refl) Heq), <- Heq.
        apply lookup_set_same.
    + change (merge_local ((k0, v0) :: l) r)
        with (merge_local l (set r (strip_at k0) v0)).
      apply IH.
      * intros k1 v1 Hin1. apply Hall. now right.
      * destruct Hin as [Heq | Hin].
        -- injection Heq as -> ->. contradiction.
        -- now exists k', v'.
Qed.
End MergeLocal.

Section ListCamerasWorld.
Lemma id_keys_world (cameras : list dict) (w w' : world)
      (r : result (list (pyval * dict))) :
  id_keys cameras w = (r, w') -> w' = w.
Proof.
  revert r w'. induction cameras as [| c cameras IH]; intros r w'; simpl.
  - now intros [= _ <-].
  - unfold bind, item. destruct (lookup c "id") as [k |].
    + unfold ret at 1.
      destruct (id_keys cameras w) as [[rest | e] w1] eqn:Hrest.
      * intros [= _ <-]. now apply (IH _ _ eq_refl).
      * intros [= _ <-]. now apply (IH _ _ eq_refl).
    + now intros [= _ <-].
Qed.

(** [check_finished] of the listing touches the response only. *)
Lemma check_finished_list_world (length : nat) (cameras : list dict)
      (w w' : world) (r : result (list dict)) :
  check_finished_list length cameras w = (r, w') ->
  exists es, w' = extend w es /\ Forall response_effect es.
Proof.
  unfold check_finished_list.
  destruct (List.length cameras =? length)%nat.
  - unfold sort_cameras, bind.
    destruct (id_keys cameras w) as [[keyed | e] w1] eqn:Hk.
    + apply id_keys_world in Hk. subst w1.
      unfold ret at 1. unfold set_header. rewrite !emit_extend.
      unfold ret. intros [= _ <-]. rewrite extend_extend.
      eexists. split; [reflexivity |]. repeat constructor.
    + apply id_keys_world in Hk. subst w1.
      intros [= _ <-]. exists []. now rewrite extend_nil.
  - intros [= _ <-]. exists []. now rewrite extend_nil.
Qed.
End ListCamerasWorld.

(** C7.  When a peer answers the listing with its configuration: if the
    peer reports the camera disabled while the local mirror has it enabled,
    the mirror is written back to the store with ['@enabled'] false; if the
    peer reports it enabled while the mirror has it disabled, the entry
    added to the listing carries the mirror's disabled flag, and the
    callback touches nothing but the response: no write to the store and
    none to the peer. *)
Theorem on_response_reconciles (E : Env) (length : nat) (camera_id : Z)
        (local_config remote_ui_config : dict) (error remote_enabled
         local_enabled : pyval) (cameras : list dict) (w : world) :
  truthy error = false ->
  lookup remote_ui_config "enabled" = Some remote_enabled ->
  lookup local_config "@enabled" = Some local_enabled ->
  let out := on_response_builder E length camera_id local_config
                                 (Some remote_ui_config) error cameras w in
  (truthy remote_enabled = false -> truthy local_enabled = true ->
   let mirror := set local_config "@enabled" (VBool false) in
   zlookup (camera_configs (snd out)) camera_id = Some mirror /\
   lookup mirror "@enabled" = Some (VBool false) /\
   In (ConfigSetCamera camera_id mirror) (trace (snd out))) /\
  (truthy remote_enabled = true -> truthy local_enabled = false ->
   NoDup (keys local_config) ->
   (forall k, In k (keys local_config) -> strip_at k = "enabled" ->
              k = "@enabled") ->
   let merged :=
     merge_local local_config
       (set (set remote_ui_config "id" (VInt camera_id)) "enabled"
            (VBool false)) in
   out = check_finished_list length (cameras ++ [merged]) w /\
   lookup merged "enabled" = Some local_enabled /\
   camera_configs (snd out) = camera_configs w /\
   exists es, trace (snd out) = trace w ++ es /\ Forall response_effect es).
Proof.
  intros Herr Hre Hle out.
  assert (Hre' : lookup (set remote_ui_config "id" (VInt camera_id)) "enabled"
                 = Some remote_enabled).
  { rewrite lookup_set_other; [exact Hre | discriminate]. }
  split.
  - intros Hr Hl mirror.
    assert (Hout : out =
      check_finished_list length
        (cameras ++ [merge_local mirror
                       (set remote_ui_config "id" (VInt camera_id))])
        (mkWorld (main_config w) (zset (camera_configs w) camera_id mirror)
                 (tracker w) (trace w ++ [ConfigSetCamera camera_id mirror]))).
    { unfold out, on_response_builder. rewrite Herr.
      unfold item, bind, ret. rewrite Hre', Hle, Hr, Hl. reflexivity. }
    rewrite Hout.
    match goal with
    | |- context [check_finished_list length ?cs ?w0] =>
        destruct (check_finished_list length cs w0) as [res w2] eqn:Hrun
    end.
    destruct (check_finished_list_world _ _ _ _ _ Hrun) as (es & -> & _).
    simpl. split; [apply zlookup_zset_same |].
    split; [apply lookup_set_same |].
    apply in_or_app. left. apply in_or_app. right. now left.
  - intros Hr Hl Hnd Huniq merged.
    assert (Hout : out = check_finished_list length (cameras ++ [merged]) w).
    { unfold out, on_response_builder. rewrite Herr.
      unfold item, bind, ret. rewrite Hre', Hle, Hr, Hl. reflexivity. }
    split; [exact Hout |]. split.
    + apply merge_local_sets.
      * intros k' v' Hin Hstrip.
        assert (Hk : k' = "@enabled").
        { apply Huniq; [| exact Hstrip].
          unfold keys. change k' with (fst (k', v')). now apply in_map. }
        subst k'. apply (In_lookup _ _ _ Hnd) in Hin. congruence.
      * exists "@enabled", local_enabled. split; [| reflexivity].
        now apply lookup_In.
    + rewrite Hout.
      destruct (check_finished_list length (cameras ++ [merged]) w)
        as [res w2] eqn:Hrun.
      destruct (check_finished_list_world _ _ _ _ _ Hrun) as (es & -> & Hes).
      simpl. split; [reflexivity |]. now exists es.
Qed.

Lemma on_response_reconciles_witness :
  let E := Example.env false in
  let peer := [("name", VStr "gate"); ("enabled", VBool false)] in
  let out := on_response_builder E 3 3 (Example.remote_cam 3 true) (Some peer)
                                 VNone [] Example.world0 in
  zlookup (camera_configs (snd out)) 3 =
    Some (set (Example.remote_cam 3 true) "@enabled" (VBool false)).
Proof.
  intros E peer out.
  refine (proj1 (proj1 (on_response_reconciles E 3 3 (Example.remote_cam 3 true)
                          peer VNone (VBool false) (VBool true) []
                          Example.world0 _ _ _) _ _)).
  - reflexivity.
  - reflexivity.
  - reflexivity.
  - reflexivity.
  - reflexivity.
Defined.

(** ** C8: starting a time-lapse render *)

(** C8.  A request to start a render on a local camera: while a job runs
    (progress other than -1) the tracker is left as it is, no job is started
    and the answer carries the job's progress; when the tracker is idle a
    job is started and the answer carries progress -1. *)
Theorem timelapse_start (E : Env) (download check : M unit) (camera_id : Z)
        (group : string) (r : request) (w : world) (camera_config : dict)
        (si sf : string) (interval framerate : Z) :
  truthy_argument r "key" = false ->
  truthy_argument r "check" = false ->
  get_argument r "interval" = Some si -> py_int E si = Some interval ->
  get_argument r "framerate" = Some sf -> py_int E sf = Some framerate ->
  zlookup (camera_configs w) camera_id = Some camera_config ->
  local_motion_camera E camera_config = true ->
  let out := timelapse E download check camera_id group r w in
  let p := progress (tracker w) in
  (p <> -1 ->
   out = (Ok tt, extend w [SetHeader "Content-Type" "application/json";
                           Finish (PJson [("progress", VInt p)])]) /\
   tracker (snd out) = tracker w /\
   existsb is_timelapse_start (trace (snd out)) =
     existsb is_timelapse_start (trace w)) /\
  (p = -1 ->
   out = (Ok tt,
          mkWorld (main_config w) (camera_configs w) (mkStatus 0 None)
                  (trace w ++
                   [MakeTimelapseMovie camera_config framerate interval group;
                    SetHeader "Content-Type" "application/json";
                    Finish (PJson [("progress", VInt (-1))])]))).
Proof.
  intros Hkey Hcheck Hi Hpi Hf Hpf Hcam Hlocal out p.
  assert (Hout : out =
    (if negb (p =? -1) then
       finish_json [("progress", VInt p)] w
     else
       (make_timelapse_movie camera_config framerate interval group ;;
        finish_json [("progress", VInt (-1))]) w)).
  { unfold out, timelapse, config_get_camera, int_argument,
      check_timelapse_movie, the_camera, bind, ret, read.
    rewrite Hcam, Hkey, Hcheck, Hi, Hpi, Hf, Hpf. cbv beta iota.
    rewrite Hlocal. fold p. destruct (p =? -1); reflexivity. }
  split.
  - intros Hp. apply Z.eqb_neq in Hp. rewrite Hout, Hp. simpl negb. cbv iota.
    unfold finish_json, set_header, bind. rewrite !emit_extend, extend_extend.
    simpl. split; [reflexivity |]. split; [reflexivity |].
    rewrite existsb_app. simpl. now rewrite orb_false_r.
  - intros Hp. rewrite Hout. apply Z.eqb_eq in Hp. rewrite Hp. simpl negb.
    cbv iota. unfold make_timelapse_movie, finish_json, set_header, bind.
    rewrite !emit_extend. unfold extend. simpl.
    now rewrite <- !app_assoc.
Qed.

Lemma timelapse_start_witness :
  let E := Example.env false in
  let r := mkRequest "GET" "/picture/1/timelapse/2014-01-01" ""
                     [("interval", "10"); ("framerate", "20")] in
  let w := mkWorld (Example.main_cfg true) [(1, Example.local_cam 1)]
                   (mkStatus 40 None) [] in
  timelapse E (ret tt) (ret tt) 1 "2014-01-01" r w =
    (Ok tt, extend w [SetHeader "Content-Type" "application/json";
                      Finish (PJson [("progress", VInt 40)])]).
Proof.
  intros E r w.
  refine (proj1 (proj1 (timelapse_start E (ret tt) (ret tt) 1 "2014-01-01" r w
                          (Example.local_cam 1) "10" "20" 10 20
                          _ _ _ _ _ _ _ _) _)).
  - reflexivity.
  - reflexivity.
  - reflexivity.
  - reflexivity.
  - reflexivity.
  - reflexivity.
  - reflexivity.
  - reflexivity.
  - discriminate.
Defined.

(** ** C9: the preview of a picture or movie *)

Section Preview.
Variable E : Env.

Lemma serve_preview_run (content : option string) (w : world) :
  serve_preview E content w =
    (Ok tt, extend w (Spec.preview_response (no_preview_svg E) content)).
Proof.
  unfold serve_preview, Spec.preview_response, Spec.available.
  destruct content as [c |]; simpl.
  - destruct (c =? "")%string; simpl;
      unfold set_header, bind; rewrite !emit_extend;
      now rewrite extend_extend.
  - unfold set_header, bind. rewrite !emit_extend.
    now rewrite extend_extend.
Qed.

Lemma preview_run (media_type : string) (camera_id : Z) (filename : string)
      (r : request) (w : world) (camera_config : dict) :
  zlookup (camera_configs w) camera_id = Some camera_config ->
  (local_motion_camera E camera_config = true ->
   preview E media_type camera_id filename r w =
     (Ok tt,
      extend w (Spec.preview_response (no_preview_svg E)
                  (get_media_preview E camera_config filename media_type
                     (get_argument r "width") (get_argument r "height"))))) /\
  (local_motion_camera E camera_config = false ->
   remote_camera E camera_config = true ->
   preview E media_type camera_id filename r w =
     (Ok tt, extend w [RemoteGetMediaPreview camera_config filename
                                             media_type])).
Proof.
  intros Hcam.
  unfold preview, config_get_camera, read, the_camera, bind, ret.
  rewrite Hcam. cbv beta iota.
  split.
  - intros ->. apply serve_preview_run.
  - intros -> ->. apply emit_extend.
Qed.
End Preview.

(** C9.  A preview request for a picture or for a movie: on a local
    camera the answer is the preview as image/jpeg when the media store has
    one, and the placeholder no-preview.svg as image/svg+xml when it has
    none; on a remote camera the peer is asked, and its answer is served in
    the same way, the placeholder standing in whenever no content came back,
    whatever the error. *)
Theorem preview_fallback (E : Env) (camera_id : Z) (filename : string)
        (r : request) (w : world) (camera_config : dict) :
  zlookup (camera_configs w) camera_id = Some camera_config ->
  (local_motion_camera E camera_config = true ->
   PictureHandler_preview E camera_id filename r w =
     (Ok tt,
      extend w (Spec.preview_response (no_preview_svg E)
                  (get_media_preview E camera_config filename "picture"
                     (get_argument r "width") (get_argument r "height")))) /\
   MovieHandler_preview E camera_id filename r w =
     (Ok tt,
      extend w (Spec.preview_response (no_preview_svg E)
                  (get_media_preview E camera_config filename "movie"
                     (get_argument r "width") (get_argument r "height"))))) /\
  (local_motion_camera E camera_config = false ->
   remote_camera E camera_config = true ->
   PictureHandler_preview E camera_id filename r w =
     (Ok tt, extend w [RemoteGetMediaPreview camera_config filename "picture"]) /\
   MovieHandler_preview E camera_id filename r w =
     (Ok tt, extend w [RemoteGetMediaPreview camera_config filename "movie"]) /\
   forall content error w',
     preview_on_response E content error w' =
       (Ok tt, extend w' (Spec.preview_response (no_preview_svg E) content))) /\
  (forall content,
     Spec.available content = false ->
     Spec.preview_response (no_preview_svg E) content =
       [SetHeader "Content-Type" "image/svg+xml";
        Finish (PContent (no_preview_svg E))]) /\
  (forall c,
     c <> ""%string ->
     Spec.preview_response (no_preview_svg E) (Some c) =
       [SetHeader "Content-Type" "image/jpeg"; Finish (PContent c)]).
Proof.
  intros Hcam.
  destruct (preview_run E "picture" camera_id filename r w _ Hcam) as [Hpl Hpr].
  destruct (preview_run E "movie" camera_id filename r w _ Hcam) as [Hml Hmr].
  split; [| split; [| split]].
  - intros Hl. split; [now apply Hpl | now apply Hml].
  - intros Hl Hr. split; [now apply Hpr |]. split; [now apply Hmr |].
    intros content error w'. apply serve_preview_run.
  - intros content Ha. unfold Spec.preview_response. now rewrite Ha.
  - intros c Hc. unfold Spec.preview_response, Spec.available.
    apply String.eqb_neq in Hc. now rewrite Hc.
Qed.

Lemma preview_fallback_witness :
  let E := Example.env false in
  let r := mkRequest "GET" "/picture/1/preview/lost.jpg" "" [] in
  PictureHandler_preview E 1 "lost.jpg" r Example.world0 =
    (Ok tt, extend Example.world0
                   [SetHeader "Content-Type" "image/svg+xml";
                    Finish (PContent "<svg/>")]).
Proof.
  intros E r.
  refine (proj1 (proj1 (preview_fallback E 1 "lost.jpg" r Example.world0
                          (Example.local_cam 1) _) _)).
  - reflexivity.
  - reflexivity.
Defined.

(** ** C10: remote cameras that cannot be asked, in the local listing *)

Lemma pending_app (t1 t2 : list effect) :
  pending (t1 ++ t2) = pending t1 ++ pending t2.
Proof.
  induction t1 as [| e t1 IH]; simpl; [reflexivity |].
  destruct e; simpl; now rewrite ?IH.
Qed.

Lemma responses_app (t1 t2 : list effect) :
  responses (t1 ++ t2) = responses t1 ++ responses t2.
Proof.
  induction t1 as [| e t1 IH]; simpl; [reflexivity |].
  destruct e; simpl; now rewrite ?IH.
Qed.

Lemma pending_request_effects (rs : list (Z * dict)) :
  pending (request_effects rs) = rs.
Proof.
  induction rs as [| [i d] rs IH]; simpl; [reflexivity |]. now rewrite IH.
Qed.

Lemma responses_request_effects (rs : list (Z * dict)) :
  responses (request_effects rs) = [].
Proof. induction rs as [| [i d] rs IH]; simpl; auto. Qed.

Section SortPermutation.
Context {A K : Type} (le : K -> K -> bool) (key : A -> K).

Lemma insert_by_perm (x : A) (l : list A) :
  Permutation (insert_by le key x l) (x :: l).
Proof.
  induction l as [| y l IH]; simpl; [reflexivity |].
  destruct (le (key x) (key y)); [reflexivity |].
  eapply perm_trans; [apply perm_skip, IH | apply perm_swap].
Qed.

Lemma sort_by_perm (l : list A) : Permutation (sort_by le key l) l.
Proof.
  induction l as [| x l IH]; simpl; [constructor |].
  eapply perm_trans; [apply insert_by_perm | now apply perm_skip].
Qed.
End SortPermutation.

Lemma sorted_by_id_perm (cameras : list dict) :
  Permutation (sorted_by_id cameras) cameras.
Proof.
  unfold sorted_by_id.
  eapply perm_trans; [apply Permutation_map, sort_by_perm |].
  rewrite map_map. simpl. now rewrite map_id.
Qed.

Lemma id_keys_ok (cameras : list dict) (w : world) :
  Forall has_id cameras ->
  id_keys cameras w = (Ok (map (fun c => (get c "id", c)) cameras), w).
Proof.
  induction 1 as [| c cameras Hc Hcs IH]; simpl; [reflexivity |].
  unfold has_id, has_key in Hc. unfold bind, item, get.
  destruct (lookup c "id") as [k |]; [| discriminate].
  unfold ret at 1. now rewrite IH.
Qed.

Lemma check_finished_list_done (n : nat) (cameras : list dict) (w : world) :
  List.length cameras = n -> Forall has_id cameras ->
  check_finished_list n cameras w =
    (Ok (sorted_by_id cameras),
     extend w (listing_response (sorted_by_id cameras))).
Proof.
  intros Hn Hid. unfold check_finished_list.
  apply Nat.eqb_eq in Hn. rewrite Hn.
  unfold sort_cameras, bind. rewrite (id_keys_ok _ _ Hid).
  unfold ret at 1. unfold set_header. rewrite !emit_extend.
  unfold ret. now rewrite extend_extend.
Qed.

Lemma check_finished_list_wait (n : nat) (cameras : list dict) (w : world) :
  List.length cameras <> n -> check_finished_list n cameras w = (Ok cameras, w).
Proof.
  intros Hn. unfold check_finished_list.
  apply Nat.eqb_neq in Hn. now rewrite Hn.
Qed.

Lemma has_id_placeholder (E : Env) (camera_id : Z) (local_config : dict) :
  has_id (placeholder E camera_id local_config).
Proof. reflexivity. Qed.

Lemma has_key_merge_local (local_config r : dict) (k : string) :
  has_key r k = true -> has_key (merge_local local_config r) k = true.
Proof.
  unfold merge_local. revert r.
  induction local_config as [| [k0 v0] l IH]; intros r Hr; simpl; [exact Hr |].
  apply IH. now apply has_key_set.
Qed.

Lemma In_zlookup {V : Type} (l : list (Z * V)) (k : Z) (v : V) :
  NoDup (map fst l) -> In (k, v) l -> zlookup l k = Some v.
Proof.
  induction l as [| [k' v'] l IH]; simpl; [contradiction |].
  intros Hnd [Heq | Hin].
  - injection Heq as -> ->. now rewrite Z.eqb_refl.
  - inversion Hnd as [| ? ? Hnotin Hnd']; subst.
    destruct (k' =? k) eqn:Hk.
    + apply Z.eqb_eq in Hk. subst k'.
      exfalso. apply Hnotin. change k with (fst (k, v)). now apply in_map.
    + now apply IH.
Qed.

Section LocalListing.
Variable E : Env.
Variable force : bool.
Variable n : nat.

(** The loop of the listing in closed form.  [q] counts the requests
    sent before; the response is written inside the loop only when no
    camera at all has to be asked. *)
Lemma list_local_cameras_run (cs : list (Z * dict)) :
  forall (cameras : list dict) (q : nat) (w : world),
    (forall id lc, In (id, lc) cs ->
                   zlookup (camera_configs w) id = Some lc) ->
    Forall (fun p => local_motion_camera E (snd p) = true \/
                     remote_camera E (snd p) = true) cs ->
    Forall (fun p => local_motion_camera E (snd p) = true ->
                     has_id (camera_dict_to_ui E (snd p))) cs ->
    Forall has_id cameras ->
    (List.length cameras + List.length cs + q = n)%nat ->
    list_local_cameras E force n (map fst cs) cameras w =
      if ((q + List.length (requests E force cs) =? 0)
          && negb (List.length cs =? 0))%nat
      then (Ok (sorted_by_id (cameras ++ entries E force cs)),
            extend w (listing_response
                        (sorted_by_id (cameras ++ entries E force cs))))
      else (Ok (cameras ++ entries E force cs),
            extend w (request_effects (requests E force cs))).
Proof.
  induction cs as [| [id lc] cs IH]; intros cameras q w Hstore Hkind Hui Hid Hlen.
  - simpl. rewrite andb_false_r, app_nil_r. unfold ret.
    now rewrite extend_nil.
  - assert (Hstep : forall entry, has_id entry ->
      bind (check_finished_list n (cameras ++ [entry]))
           (fun cameras1 =>
              list_local_cameras E force n (map fst cs) cameras1) w =
      if (q + List.length (requests E force cs) =? 0)%nat
      then (Ok (sorted_by_id (cameras ++ entry :: entries E force cs)),
            extend w (listing_response
                        (sorted_by_id (cameras ++ entry :: entries E force cs))))
      else (Ok (cameras ++ entry :: entries E force cs),
            extend w (request_effects (requests E force cs)))).
    { intros entry He.
      assert (Hid1 : Forall has_id (cameras ++ [entry])).
      { apply Forall_app. split; [exact Hid | now constructor]. }
      assert (Hlen1 : List.length (cameras ++ [entry])
                      = S (List.length cameras)).
      { rewrite length_app. simpl. lia. }
      simpl in Hlen.
      destruct (Nat.eq_dec (List.length (cameras ++ [entry])) n) as [Hdone | Hwait].
      - rewrite (bind_ok _ _ _ _ _ (check_finished_list_done _ _ w Hdone Hid1)).
        assert (Hcs : cs = []) by (destruct cs; [reflexivity | simpl in *; lia]).
        assert (Hq : q = 0%nat) by lia.
        subst cs q. reflexivity.
      - rewrite (bind_ok _ _ _ _ _ (check_finished_list_wait _ _ w Hwait)).
        rewrite (IH (cameras ++ [entry]) q w); auto.
        + rewrite <- !app_assoc. simpl app.
          destruct cs as [| c cs'].
          * simpl. rewrite andb_false_r.
            replace (q + 0 =? 0)%nat with false; [reflexivity |].
            symmetry. apply Nat.eqb_neq. simpl in *. lia.
          * simpl (negb _). now rewrite andb_true_r.
        + intros i l Hin. apply Hstore. now right.
        + exact (Forall_inv_tail Hkind).
        + exact (Forall_inv_tail Hui).
        + lia. }
    change (map fst ((id, lc) :: cs)) with (id :: map fst cs).
    cbn [list_local_cameras].
    unfold config_get_camera, read. unfold bind at 1.
    rewrite (Hstore id lc (or_introl eq_refl)).
    pose proof (Forall_inv Hkind) as Hk. simpl in Hk.
    pose proof (Forall_inv Hui) as Hu. simpl in Hu.
    pose proof (Forall_inv_tail Hkind) as Hkind'.
    pose proof (Forall_inv_tail Hui) as Hui'.
    cbn [entries requests]. unfold contacted, skipped.
    replace (List.length ((id, lc) :: cs) =? 0)%nat with false by reflexivity.
    simpl negb. rewrite andb_true_r.
    destruct (local_motion_camera E lc) eqn:Hl.
    + simpl andb. cbv iota. apply Hstep. now apply Hu.
    + destruct Hk as [Hk | Hk]; [discriminate |]. rewrite Hk. simpl andb.
      destruct (truthy (get lc "@enabled") || force) eqn:Hc.
      * simpl negb. cbv iota.
        unfold bind. rewrite emit_extend. unfold ret at 1. cbv beta iota.
        rewrite (IH cameras (S q) (extend w [RemoteGetConfig id lc])); auto.
        -- simpl List.length. rewrite Nat.add_succ_r. simpl (S _ =? 0)%nat.
           simpl andb. cbv iota. rewrite extend_extend. reflexivity.
        -- intros i l Hin. simpl. apply Hstore. now right.
        -- simpl in Hlen. lia.
      * simpl negb. cbv iota.
        unfold on_response_builder. simpl (truthy (VBool true)). cbv iota.
        apply Hstep. apply has_id_placeholder.
Qed.
End LocalListing.

Section Deliveries.
Variable E : Env.
Variable n : nat.

(** One answer adds its entry; before that it may write the mirror to
    the store, and it neither responds nor asks a peer. *)
Lemma on_response_run (d : delivery) (cameras : list dict) (w : world) :
  answered d ->
  exists w1 es,
    on_response_builder E n (d_id d) (d_local d) (d_remote d) (d_error d)
                        cameras w
      = check_finished_list n (cameras ++ [delivered_entry E d]) w1 /\
    trace w1 = trace w ++ es /\ responses es = [] /\ pending es = [].
Proof.
  intros Hans. unfold on_response_builder, delivered_entry.
  destruct (truthy (d_error d)) eqn:Herr.
  { exists w, []. rewrite app_nil_r. auto. }
  destruct Hans as [Hans | (rc & Hrc & Hre & Hle)]; [congruence |].
  rewrite Hrc.
  unfold has_key in Hre, Hle.
  destruct (lookup rc "enabled") as [re |] eqn:Hre'; [| discriminate].
  destruct (lookup (d_local d) "@enabled") as [le |] eqn:Hle'; [| discriminate].
  assert (Hre2 : lookup (set rc "id" (VInt (d_id d))) "enabled" = Some re).
  { rewrite lookup_set_other; [exact Hre' | discriminate]. }
  unfold item, get. rewrite Hre2, Hle'. unfold ret, bind.
  destruct (negb (truthy re) && truthy le).
  - unfold config_set_camera.
    eexists. exists [ConfigSetCamera (d_id d)
                       (set (d_local d) "@enabled" (VBool false))].
    split; [reflexivity |]. simpl. auto.
  - destruct (truthy re && negb (truthy le));
      exists w, []; rewrite app_nil_r; auto.
Qed.

Lemma delivered_entry_has_id (d : delivery) :
  answered d -> has_id (delivered_entry E d).
Proof.
  intros Hans. unfold delivered_entry, has_id.
  destruct (truthy (d_error d)) eqn:Herr; [reflexivity |].
  destruct Hans as [Hans | (rc & Hrc & _)]; [congruence |].
  rewrite Hrc.
  assert (Hid : has_key (set rc "id" (VInt (d_id d))) "id" = true).
  { unfold has_key. now rewrite lookup_set_same. }
  destruct (_ && _); [now apply has_key_merge_local |].
  destruct (_ && _); apply has_key_merge_local; [now apply has_key_set | exact Hid].
Qed.

(** The answers in closed form: the last one ends the listing. *)
Lemma deliver_responses_run (ds : list delivery) :
  forall (cameras : list dict) (w : world),
    ds <> [] ->
    Forall answered ds ->
    Forall has_id cameras ->
    (List.length cameras + List.length ds = n)%nat ->
    exists w',
      deliver_responses E n ds cameras w =
        (Ok (sorted_by_id (cameras ++ map (delivered_entry E) ds)), w') /\
      responses (trace w') =
        responses (trace w) ++
        [PCameras (sorted_by_id (cameras ++ map (delivered_entry E) ds))].
Proof.
  induction ds as [| d ds IH]; intros cameras w Hne Hans Hid Hlen;
    [contradiction |].
  pose proof (Forall_inv Hans) as Hd.
  pose proof (Forall_inv_tail Hans) as Hds.
  destruct (on_response_run d cameras w Hd) as (w1 & es & Hrun & Htr & Hres & _).
  assert (Hid1 : Forall has_id (cameras ++ [delivered_entry E d])).
  { apply Forall_app. split; [exact Hid |].
    constructor; [now apply delivered_entry_has_id | constructor]. }
  assert (Hlen1 : List.length (cameras ++ [delivered_entry E d])
                  = S (List.length cameras)).
  { rewrite length_app. simpl. lia. }
  assert (Hresp1 : responses (trace w1) = responses (trace w)).
  { rewrite Htr, responses_app, Hres. apply app_nil_r. }
  simpl deliver_responses. unfold bind at 1. rewrite Hrun.
  simpl in Hlen. simpl map.
  replace (cameras ++ delivered_entry E d :: map (delivered_entry E) ds)
    with ((cameras ++ [delivered_entry E d]) ++ map (delivered_entry E) ds)
    by (now rewrite <- app_assoc).
  destruct ds as [| d' ds'].
  - rewrite check_finished_list_done; [| simpl in *; lia | exact Hid1].
    simpl. rewrite app_nil_r. eexists. split; [reflexivity |].
    simpl. rewrite responses_app, Hresp1. reflexivity.
  - rewrite check_finished_list_wait; [| simpl in *; lia].
    destruct (IH (cameras ++ [delivered_entry E d]) w1) as (w' & Hrun' & Hresp');
      [discriminate | exact Hds | exact Hid1 | simpl in *; lia |].
    exists w'. split; [exact Hrun' |]. now rewrite Hresp', Hresp1.
Qed.
End Deliveries.

Section Entries.
Variable E : Env.
Variable force : bool.

Lemma entries_requests_length (cs : list (Z * dict)) :
  Forall (fun p => local_motion_camera E (snd p) = true \/
                   remote_camera E (snd p) = true) cs ->
  (List.length (entries E force cs) + List.length (requests E force cs)
   = List.length cs)%nat.
Proof.
  induction 1 as [| [id lc] cs Hk Hcs IH]; [reflexivity |].
  simpl in Hk. cbn [entries requests]. unfold contacted, skipped.
  destruct (local_motion_camera E lc); simpl.
  - lia.
  - destruct Hk as [Hk | Hk]; [discriminate |]. rewrite Hk. simpl.
    destruct (truthy (get lc "@enabled") || force); simpl; lia.
Qed.

Lemma entries_has_id (cs : list (Z * dict)) :
  Forall (fun p => local_motion_camera E (snd p) = true ->
                   has_id (camera_dict_to_ui E (snd p))) cs ->
  Forall has_id (entries E force cs).
Proof.
  induction 1 as [| [id lc] cs Hu Hcs IH]; [constructor |].
  simpl in Hu. cbn [entries].
  destruct (local_motion_camera E lc); [constructor; auto |].
  destruct (skipped E force lc); [| exact IH].
  constructor; [apply has_id_placeholder | exact IH].
Qed.

Lemma In_entries_local (cs : list (Z * dict)) (id : Z) (lc : dict) :
  In (id, lc) cs -> local_motion_camera E lc = true ->
  In (camera_dict_to_ui E lc) (entries E force cs).
Proof.
  intros Hin Hl. induction cs as [| [id' lc'] cs IH]; [contradiction |].
  cbn [entries]. destruct Hin as [Heq | Hin].
  - injection Heq as -> ->. rewrite Hl. now left.
  - destruct (local_motion_camera E lc'); [right; auto |].
    destruct (skipped E force lc'); [right |]; auto.
Qed.

Lemma In_entries_skipped (cs : list (Z * dict)) (id : Z) (lc : dict) :
  In (id, lc) cs -> skipped E force lc = true ->
  In (placeholder E id lc) (entries E force cs).
Proof.
  intros Hin Hs. induction cs as [| [id' lc'] cs IH]; [contradiction |].
  cbn [entries]. destruct Hin as [Heq | Hin].
  - injection Heq as -> ->. rewrite Hs.
    unfold skipped in Hs. apply andb_true_iff in Hs as [Hs _].
    apply andb_true_iff in Hs as [Hs _]. apply negb_true_iff in Hs.
    rewrite Hs. now left.
  - destruct (local_motion_camera E lc'); [right; auto |].
    destruct (skipped E force lc'); [right |]; auto.
Qed.
End Entries.

(** The synchronous part of the local listing, in closed form. *)
Lemma list_cameras_run (E : Env) (r : request) (w : world) :
  local_listing r ->
  truthy (get (main_config w) "@enabled") = true ->
  NoDup (map fst (camera_configs w)) ->
  (forall id lc, In (id, lc) (camera_configs w) ->
                 local_motion_camera E lc = true \/ remote_camera E lc = true) ->
  (forall id lc, In (id, lc) (camera_configs w) ->
                 local_motion_camera E lc = true ->
                 has_id (camera_dict_to_ui E lc)) ->
  let cs := camera_configs w in
  let force := flag_argument r "force" in
  list_cameras E r w =
    match cs, requests E force cs with
    | [], _ => (Ok (0%nat, []), extend w (listing_response []))
    | _ :: _, [] =>
        (Ok (List.length cs, sorted_by_id (entries E force cs)),
         extend w (listing_response (sorted_by_id (entries E force cs))))
    | _ :: _, _ :: _ =>
        (Ok (List.length cs, entries E force cs),
         extend w (request_effects (requests E force cs)))
    end.
Proof.
  intros (Hp1 & Hp2 & Hp3) Hmain Hnd Hkind Hui cs force.
  unfold list_cameras. rewrite Hp1, Hp2, Hp3.
  unfold config_get_camera_ids, config_get_main, read.
  unfold bind at 1. unfold bind at 1. rewrite Hmain. simpl negb. cbv iota.
  rewrite length_map. fold cs. fold force. unfold bind.
  rewrite (list_local_cameras_run E force (List.length cs) cs [] 0 w).
  - simpl app. simpl (0 + _)%nat.
    destruct cs as [| c cs'] eqn:Hcs.
    + simpl. unfold finish_json_cameras_empty, set_header, bind.
      rewrite !emit_extend. unfold ret. now rewrite !extend_extend.
    + destruct (requests E force (c :: cs')) as [| q qs]; reflexivity.
  - intros id lc Hin. now apply In_zlookup.
  - apply Forall_forall. intros [id lc] Hin. now apply (Hkind id).
  - apply Forall_forall. intros [id lc] Hin. now apply (Hui id).
  - constructor.
  - simpl. lia.
Qed.

(** Four listings in which a remote camera that could not be asked is
    missing from the result, or no result is written at all:
    with the main configuration disabled the listing answers no camera, and
    a remote camera that is disabled here is left out;
    with a camera that is neither local nor remote configured, no response
    is written though the one peer that was asked has answered;
    when a peer answers with an object that has no [enabled], its callback
    raises a KeyError and no response is written;
    when a peer answers for a camera whose local record has no ['@enabled']
    (it was asked because the listing was forced), its callback raises a
    KeyError and no response is written;
    when the UI configuration of a local camera has no [id], the sort of
    the entries raises a KeyError and no response is written. *)
Lemma listing_with_main_disabled_omits_cameras :
  let E := Example.env false in
  let r := mkRequest "GET" "/config/list/" "" [] in
  let failed := mkDelivery 3 (Example.remote_cam 3 true) None (VStr "timeout") in
  (let w := mkWorld (Example.main_cfg false) [(5, Example.remote_cam 5 false)]
                    Example.idle [] in
   In (5, Example.remote_cam 5 false) (camera_configs w) /\
   skipped E (flag_argument r "force") (Example.remote_cam 5 false) = true /\
   list_cameras_then E r [] w = (Ok [], extend w (listing_response [])) /\
   responses (trace (snd (list_cameras_then E r [] w))) = [PCameras []]) /\
  (let w := mkWorld (Example.main_cfg true)
                    [(3, Example.remote_cam 3 true); (7, [("@id", VInt 7)])]
                    Example.idle [] in
   pending (trace (snd (list_cameras E r w))) = [(3, Example.remote_cam 3 true)] /\
   fst (list_cameras_then E r [failed] w)
     = Ok [placeholder E 3 (Example.remote_cam 3 true)] /\
   responses (trace (snd (list_cameras_then E r [failed] w))) = []) /\
  (let w := mkWorld (Example.main_cfg true)
                    [(3, Example.remote_cam 3 true); (4, Example.remote_cam 4 true)]
                    Example.idle [] in
   let refused := mkDelivery 4 (Example.remote_cam 4 true)
                             (Some [("error", VStr "unauthorized")]) VNone in
   fst (list_cameras_then E r [failed; refused] w) = Raise (KeyError "enabled") /\
   responses (trace (snd (list_cameras_then E r [failed; refused] w))) = []) /\
  (let forced := mkRequest "GET" "/config/list/" "" [("force", "true")] in
   let unflagged := [("@proto", VStr "motioneye"); ("@host", VStr "peer")] in
   let w := mkWorld (Example.main_cfg true)
                    [(3, Example.remote_cam 3 true); (4, unflagged)]
                    Example.idle [] in
   let good := mkDelivery 4 unflagged (Some [("enabled", VBool true)]) VNone in
   fst (list_cameras_then E forced [failed; good] w)
     = Raise (KeyError "@enabled") /\
   responses (trace (snd (list_cameras_then E forced [failed; good] w))) = []) /\
  (let w := mkWorld (Example.main_cfg true)
                    [(1, [("videodevice", VStr "/dev/video0")]);
                     (3, Example.remote_cam 3 true)]
                    Example.idle [] in
   fst (list_cameras_then E r [failed] w) = Raise (KeyError "id") /\
   responses (trace (snd (list_cameras_then E r [failed] w))) = []).
Proof.
  intros E r failed. repeat split. now left.
Qed.

(** C10, amended.  With the main configuration enabled, every configured
    camera either local or remote, an [id] in the UI configuration of every
    local camera, and every peer that was asked answering, in any order,
    either with an error or with a configuration that has [enabled] for a
    camera whose local record has ['@enabled']: the listing responds once,
    with one entry per camera: the placeholder entry of every remote camera
    whose peer answered with an error, the placeholder entry of every remote
    camera that was not asked because it is disabled here, and the
    configuration of every local camera. *)
Theorem local_listing_placeholders (E : Env) (r : request) (w : world)
        (ds : list delivery) :
  local_listing r ->
  truthy (get (main_config w) "@enabled") = true ->
  NoDup (map fst (camera_configs w)) ->
  (forall id lc, In (id, lc) (camera_configs w) ->
                 local_motion_camera E lc = true \/ remote_camera E lc = true) ->
  (forall id lc, In (id, lc) (camera_configs w) ->
                 local_motion_camera E lc = true ->
                 has_id (camera_dict_to_ui E lc)) ->
  pending (trace w) = [] ->
  Permutation (map (fun d => (d_id d, d_local d)) ds)
              (pending (trace (snd (list_cameras E r w)))) ->
  Forall answered ds ->
  exists cameras w',
    list_cameras_then E r ds w = (Ok cameras, w') /\
    responses (trace w') = responses (trace w) ++ [PCameras cameras] /\
    List.length cameras = List.length (camera_configs w) /\
    (forall d, In d ds -> truthy (d_error d) = true ->
               In (placeholder E (d_id d) (d_local d)) cameras) /\
    (forall id lc, In (id, lc) (camera_configs w) ->
                   skipped E (flag_argument r "force") lc = true ->
                   In (placeholder E id lc) cameras) /\
    (forall id lc, In (id, lc) (camera_configs w) ->
                   local_motion_camera E lc = true ->
                   In (camera_dict_to_ui E lc) cameras).
Proof.
  intros Hlocal Hmain Hnd Hkind Hui Hpend Hperm Hans.
  pose proof (list_cameras_run E r w Hlocal Hmain Hnd Hkind Hui) as Hrun.
  cbv zeta in Hrun.
  set (cs := camera_configs w) in *.
  set (force := flag_argument r "force") in *.
  assert (Hkind' : Forall (fun p => local_motion_camera E (snd p) = true \/
                                    remote_camera E (snd p) = true) cs).
  { apply Forall_forall. intros [id lc] Hin. now apply (Hkind id). }
  assert (Hui' : Forall (fun p => local_motion_camera E (snd p) = true ->
                                  has_id (camera_dict_to_ui E (snd p))) cs).
  { apply Forall_forall. intros [id lc] Hin. now apply (Hui id). }
  pose proof (entries_requests_length E force cs Hkind') as Hcount.
  pose proof (entries_has_id E force cs Hui') as Hids.
  assert (Hsorted : forall l x, In x l -> In x (sorted_by_id l)).
  { intros l x Hx.
    apply (Permutation_in x (Permutation_sym (sorted_by_id_perm l)) Hx). }
  assert (Hsorted_len : forall l, List.length (sorted_by_id l) = List.length l).
  { intros l. apply Permutation_length, sorted_by_id_perm. }
  unfold list_cameras_then.
  destruct cs as [| c cs'] eqn:Hcs.
  - (* no camera is configured *)
    rewrite Hrun in Hperm. simpl in Hperm.
    rewrite pending_app, Hpend in Hperm. simpl in Hperm.
    apply Permutation_sym, Permutation_nil in Hperm.
    apply map_eq_nil in Hperm. subst ds.
    rewrite (bind_ok _ _ _ _ _ Hrun).
    exists [], (extend w (listing_response [])).
    split; [reflexivity |].
    split; [unfold extend; cbn [trace]; now rewrite responses_app |].
    split; [reflexivity |].
    repeat split; intros; contradiction.
  - destruct (requests E force (c :: cs')) as [| q qs] eqn:Hreq.
    + (* no peer is asked: the loop itself ends the listing *)
      rewrite Hrun in Hperm. simpl in Hperm.
      rewrite pending_app, Hpend in Hperm. simpl in Hperm.
      apply Permutation_sym, Permutation_nil in Hperm.
    apply map_eq_nil in Hperm. subst ds.
      rewrite (bind_ok _ _ _ _ _ Hrun).
      exists (sorted_by_id (entries E force (c :: cs'))),
        (extend w (listing_response
                     (sorted_by_id (entries E force (c :: cs'))))).
      split; [reflexivity |].
      split; [unfold extend; cbn [trace]; now rewrite responses_app |].
      split; [rewrite Hsorted_len; rewrite <- Hcount; simpl; lia |].
      split; [intros d Hd; contradiction |].
      split.
      * intros id lc Hin Hs. apply Hsorted.
        now apply (In_entries_skipped E force (c :: cs') id lc).
      * intros id lc Hin Hl. apply Hsorted.
        now apply (In_entries_local E force (c :: cs') id lc).
    + (* some peers are asked: their last answer ends the listing *)
      rewrite Hrun in Hperm. unfold extend in Hperm. cbn [snd trace] in Hperm.
      rewrite pending_app, Hpend, pending_request_effects in Hperm.
      simpl app in Hperm.
      assert (Hlen : List.length ds = List.length (q :: qs)).
      { rewrite <- (Permutation_length Hperm). now rewrite length_map. }
      rewrite (bind_ok _ _ _ _ _ Hrun). simpl fst. simpl snd.
      destruct (deliver_responses_run E (List.length (c :: cs')) ds
                  (entries E force (c :: cs'))
                  (extend w (request_effects (q :: qs))))
        as (w' & Hdel & Hresp).
      * intros ->. discriminate.
      * exact Hans.
      * exact Hids.
      * rewrite Hlen. exact Hcount.
      * exists (sorted_by_id (entries E force (c :: cs')
                              ++ map (delivered_entry E) ds)), w'.
        split; [exact Hdel |].
        split.
        { rewrite Hresp. unfold extend. cbn [trace]. rewrite responses_app.
          now rewrite responses_request_effects, app_nil_r. }
        split.
        { rewrite Hsorted_len, length_app, length_map, Hlen. exact Hcount. }
        split.
        { intros d Hd Herr. apply Hsorted. apply in_or_app. right.
          replace (placeholder E (d_id d) (d_local d))
            with (delivered_entry E d)
            by (unfold delivered_entry; now rewrite Herr).
          now apply in_map. }
        split.
        { intros id lc Hin Hs. apply Hsorted. apply in_or_app. left.
          now apply (In_entries_skipped E force (c :: cs') id lc). }
        { intros id lc Hin Hl. apply Hsorted. apply in_or_app. left.
          now apply (In_entries_local E force (c :: cs') id lc). }
Qed.

Lemma local_listing_placeholders_witness :
  let E := Example.env false in
  let r := mkRequest "GET" "/config/list/" "" [] in
  let ds := [mkDelivery 3 (Example.remote_cam 3 true) None (VStr "timeout")] in
  exists cameras w',
    list_cameras_then E r ds Example.world0 = (Ok cameras, w') /\
    responses (trace w') =
      responses (trace Example.world0) ++ [PCameras cameras] /\
    List.length cameras = List.length (camera_configs Example.world0) /\
    (forall d, In d ds -> truthy (d_error d) = true ->
               In (placeholder E (d_id d) (d_local d)) cameras) /\
    (forall id lc, In (id, lc) (camera_configs Example.world0) ->
                   skipped E (flag_argument r "force") lc = true ->
                   In (placeholder E id lc) cameras) /\
    (forall id lc, In (id, lc) (camera_configs Example.world0) ->
                   local_motion_camera E lc = true ->
                   In (camera_dict_to_ui E lc) cameras).
Proof.
  intros E r ds.
  apply (local_listing_placeholders E r Example.world0 ds).
  - repeat split.
  - reflexivity.
  - simpl. repeat constructor; simpl; intuition discriminate.
  - intros id lc [H | [H | [H | []]]]; injection H as <- <-;
      [left | right | right]; reflexivity.
  - intros id lc [H | [H | [H | []]]]; injection H as <- <-;
      intros Hl; try discriminate Hl; reflexivity.
  - reflexivity.
  - simpl. apply Permutation_refl.
  - constructor; [| constructor]. left. reflexivity.
Defined.

(** * More properties of the handlers *)

(** ** Who reaches a handler *)

(** X1.  A request that does not match the admin credential never runs the
    body of an admin-only handler: [get_current_user] answers a role other
    than admin, and whatever the body is, the guard answers what
    [get_current_user] logged followed by the unauthorized object, and
    nothing of the body. *)
Theorem admin_only_needs_admin_credential (E : Env) (prompt : bool)
        (r : request) (w : world) :
  ~ Spec.matches_credential E (main_config w) r
      "@admin_username" "@admin_password" ->
  exists user log,
    get_current_user E r w = (Ok user, extend w log) /\
    user <> Some "admin" /\
    forall func : request -> M unit,
      auth E true prompt func r w =
        (Ok tt, extend w (log ++ Spec.unauthorized_response prompt)).
Proof.
  intros Hna.
  destruct (get_current_user_sound E r w) as (user & log & Hrun & Hspec).
  exists user, log. split; [exact Hrun |].
  assert (Hreject : forall w0,
            (set_header "Content-Type" "application/json" ;;
             finish_json [("error", VStr "unauthorized");
                          ("prompt", VBool prompt)]) w0
            = (Ok tt, extend w0 (Spec.unauthorized_response prompt))).
  { intros w0. unfold finish_json, set_header, bind. rewrite !emit_extend.
    now rewrite !extend_extend. }
  assert (Huser : user <> Some "admin").
  { destruct Hspec; try contradiction; discriminate. }
  split; [exact Huser |].
  intros func. unfold auth. rewrite (bind_ok _ _ _ _ _ Hrun).
  destruct Hspec; try contradiction; simpl;
    rewrite Hreject; now rewrite extend_extend.
Qed.

Lemma admin_only_needs_admin_credential_witness :
  let E := Example.env false in
  let r := mkRequest "POST" "/config/0/set/" "" [("_username", "guest")] in
  exists user log,
    get_current_user E r Example.world0 = (Ok user, extend Example.world0 log) /\
    user <> Some "admin" /\
    forall func : request -> M unit,
      auth E true true func r Example.world0 =
        (Ok tt, extend Example.world0 (log ++ Spec.unauthorized_response true)).
Proof.
  intros E r.
  apply (admin_only_needs_admin_credential E true r Example.world0).
  intros [H _]. discriminate H.
Defined.

(** X2.  When the normal password is empty or unset, a request without a
    username and without [_admin=true] runs a handler that does not require
    admin, and nothing is logged on the way. *)
Theorem open_access_runs_handler (E : Env) (prompt : bool)
        (func : request -> M unit) (r : request) (w : world) :
  Spec.no_username r ->
  Spec.normal_password_unset (main_config w) ->
  flag_argument r "_admin" = false ->
  auth E false prompt func r w = func r w.
Proof.
  intros Hno Hunset Hadmin.
  apply no_username_spec in Hno. unfold Spec.normal_password_unset in Hunset.
  unfold auth, get_current_user, bind, read. rewrite Hadmin.
  destruct (credentials_match E (main_config w) "@admin_username"
                              "@admin_password" r); [reflexivity |].
  rewrite Hno, Hunset. reflexivity.
Qed.

Lemma open_access_runs_handler_witness :
  auth (Example.env false) false true (fun _ => finish_json [])
       (mkRequest "GET" "/login/" "" []) Example.world0 =
    finish_json [] Example.world0.
Proof.
  apply (open_access_runs_handler (Example.env false)).
  - left. reflexivity.
  - reflexivity.
  - reflexivity.
Defined.

(** ** What a change of the main configuration does *)

Lemma zlookup_zset_other {V : Type} (l : list (Z * V)) (k k' : Z) (v : V) :
  k <> k' -> zlookup (zset l k v) k' = zlookup l k'.
Proof.
  intros Hne. induction l as [| [k0 v0] l IH]; simpl.
  - destruct (k =? k') eqn:Hk; [| reflexivity].
    apply Z.eqb_eq in Hk. contradiction.
  - destruct (k0 =? k) eqn:Hk; simpl.
    + apply Z.eqb_eq in Hk. subst k0.
      destruct (k =? k') eqn:Hk'; [| reflexivity].
      apply Z.eqb_eq in Hk'. contradiction.
    + now rewrite IH.
Qed.

Lemma existsb_Zeqb (k : Z) (l : list Z) :
  existsb (Z.eqb k) l = true <-> In k l.
Proof.
  rewrite existsb_exists. split.
  - intros (x & Hin & Hx). apply Z.eqb_eq in Hx. now subst.
  - intros Hin. exists k. split; [exact Hin | apply Z.eqb_refl].
Qed.

Lemma zlookup_In_keys {V : Type} (l : list (Z * V)) (k : Z) (v : V) :
  zlookup l k = Some v -> In k (map fst l).
Proof.
  induction l as [| [k' v'] l IH]; simpl; [discriminate |].
  destruct (k' =? k) eqn:Hk.
  - apply Z.eqb_eq in Hk. now left.
  - intros H. right. now apply IH.
Qed.

Lemma In_keys_zlookup {V : Type} (l : list (Z * V)) (k : Z) :
  In k (map fst l) -> exists v, zlookup l k = Some v.
Proof.
  induction l as [| [k' v'] l IH]; simpl; [contradiction |].
  intros [Heq | Hin].
  - subst k'. rewrite Z.eqb_refl. now exists v'.
  - destruct (k' =? k); [now exists v' | now apply IH].
Qed.

Section Reconfigure.
Variable E : Env.

(** The loop over the cameras in closed form: the local cameras among
    [ids] get their record derived again, every other record stays. *)
Lemma reconfigure_run (ids : list Z) :
  forall (restart : bool) (w : world),
    NoDup ids ->
    (forall id, In id ids -> exists lc, zlookup (camera_configs w) id = Some lc) ->
    exists w',
      reconfigure_local_cameras E ids restart w =
        (Ok (restart ||
             existsb (fun id => match zlookup (camera_configs w) id with
                                | Some lc => local_motion_camera E lc
                                | None => false
                                end) ids), w') /\
      main_config w' = main_config w /\
      (forall id,
          zlookup (camera_configs w') id =
            match zlookup (camera_configs w) id with
            | Some lc =>
                if existsb (Z.eqb id) ids && local_motion_camera E lc
                then Some (rederived E lc) else Some lc
            | None => None
            end) /\
      exists es, trace w' = trace w ++ es /\ Forall store_effect es.
Proof.
  induction ids as [| id ids IH]; intros restart w Hnd Hall.
  - exists w. simpl. rewrite orb_false_r. split; [reflexivity |].
    split; [reflexivity |]. split.
    + intros id. now destruct (zlookup (camera_configs w) id).
    + exists []. now rewrite app_nil_r.
  - destruct (Hall id (or_introl eq_refl)) as [lc Hlc].
    pose proof (NoDup_cons_iff id ids) as [Hnd' _].
    destruct (Hnd' Hnd) as [Hnotin Hnd_ids].
    cbn [reconfigure_local_cameras].
    unfold config_get_camera, read, the_camera. unfold bind at 1.
    rewrite Hlc. unfold bind at 1. unfold ret at 1.
    cbn [existsb]. rewrite Hlc.
    destruct (local_motion_camera E lc) eqn:Hl; cbn [negb].
    + unfold bind at 1. unfold config_set_camera at 1.
      set (w1 := mkWorld (main_config w)
                         (zset (camera_configs w) id
                               (camera_ui_to_dict E (camera_dict_to_ui E lc) lc))
                         (tracker w)
                         (trace w ++ [ConfigSetCamera id
                            (camera_ui_to_dict E (camera_dict_to_ui E lc) lc)])).
      destruct (IH true w1 Hnd_ids) as (w' & Hrun & Hmain & Hstore & es & Htr & Hes).
      { intros j Hj. simpl. rewrite zlookup_zset_other.
        - apply Hall. now right.
        - intros ->. contradiction. }
      exists w'. rewrite Hrun. rewrite orb_true_r. simpl.
      split; [reflexivity |]. split; [exact Hmain |]. split.
      * intros j. rewrite Hstore. simpl.
        destruct (Z.eq_dec j id) as [-> | Hne].
        -- rewrite zlookup_zset_same, Hlc, Z.eqb_refl. simpl. rewrite Hl.
           replace (existsb (Z.eqb id) ids) with false; [reflexivity |].
           symmetry. apply not_true_is_false. intros H.
           apply existsb_Zeqb in H. contradiction.
        -- rewrite zlookup_zset_other by congruence.
           apply Z.eqb_neq in Hne. now rewrite Hne.
      * exists (ConfigSetCamera id
                  (camera_ui_to_dict E (camera_dict_to_ui E lc) lc) :: es).
        split; [rewrite Htr; simpl; now rewrite <- app_assoc |].
        constructor; [exact I | exact Hes].
    + destruct (IH restart w Hnd_ids) as (w' & Hrun & Hmain & Hstore & Hes).
      { intros j Hj. apply Hall. now right. }
      exists w'. rewrite Hrun. simpl.
      split; [reflexivity |]. split; [exact Hmain |]. split; [| exact Hes].
      intros j. rewrite Hstore.
      destruct (Z.eq_dec j id) as [-> | Hne].
      * rewrite Hlc, Z.eqb_refl, Hl. simpl.
        now rewrite andb_false_r.
      * apply Z.eqb_neq in Hne. now rewrite Hne.
Qed.
End Reconfigure.

Lemma filter_nonempty_existsb {A : Type} (f : A -> bool) (l : list A) :
  match filter f l with [] => false | _ :: _ => true end = existsb f l.
Proof.
  induction l as [| x l IH]; simpl; [reflexivity |].
  destruct (f x); simpl; [reflexivity | exact IH].
Qed.

Lemma existsb_local_ids (E : Env) (store : list (Z * dict)) :
  NoDup (map fst store) ->
  existsb (fun id => match zlookup store id with
                     | Some lc => local_motion_camera E lc
                     | None => false
                     end) (map fst store)
  = has_local_camera E store.
Proof.
  intros Hnd. unfold has_local_camera.
  apply eq_true_iff_eq. rewrite !existsb_exists. split.
  - intros (id & Hin & Hl).
    destruct (zlookup store id) as [lc |] eqn:Hlc; [| discriminate].
    exists (id, lc). split; [| exact Hl].
    clear Hin Hl Hnd. induction store as [| [k v] store IH]; [discriminate |].
    simpl in Hlc. destruct (k =? id) eqn:Hk.
    + apply Z.eqb_eq in Hk. injection Hlc as ->. subst. now left.
    + right. now apply IH.
  - intros ([id lc] & Hin & Hl). simpl in Hl.
    exists id. split.
    + change id with (fst (id, lc)). now apply in_map.
    + now rewrite (In_zlookup _ _ _ Hnd Hin).
Qed.

(** [set_main_config] in closed form. *)
Lemma set_main_config_run (E : Env) (ui_config : dict) (w : world) :
  NoDup (map fst (camera_configs w)) ->
  let old := main_config w in
  let new := new_main_config E old ui_config in
  let normal_changed :=
    credentials_changed E old new "@normal_username" "@normal_password" in
  exists w1,
    set_main_config E ui_config w =
      (Ok (mkMainResult
             (credentials_changed E old new "@admin_username" "@admin_password")
             (reboot_field_changed E old new && ENABLE_REBOOT E)
             (normal_changed && has_local_camera E (camera_configs w))),
       w1) /\
    main_config w1 = new /\
    (forall id,
        zlookup (camera_configs w1) id =
          match zlookup (camera_configs w) id with
          | Some lc =>
              if normal_changed && local_motion_camera E lc
              then Some (rederived E lc) else Some lc
          | None => None
          end) /\
    exists es, trace w1 = trace w ++ ConfigSetMain new :: es /\
               Forall store_effect es.
Proof.
  intros Hnd old new normal_changed.
  unfold set_main_config, config_get_main, read. unfold bind at 1.
  fold old. fold (new_main_config E old ui_config). fold new.
  rewrite filter_nonempty_existsb. fold (reboot_field_changed E old new).
  fold (credentials_changed E old new "@admin_username" "@admin_password").
  fold (credentials_changed E old new "@normal_username" "@normal_password").
  fold normal_changed.
  unfold bind at 1. unfold config_set_main at 1.
  set (w0 := mkWorld new (camera_configs w) (tracker w)
                     (trace w ++ [ConfigSetMain new])).
  assert (Hreboot : (if reboot_field_changed E old new && ENABLE_REBOOT E
                     then reboot_field_changed E old new else false)
                    = reboot_field_changed E old new && ENABLE_REBOOT E).
  { now destruct (reboot_field_changed E old new), (ENABLE_REBOOT E). }
  rewrite Hreboot.
  destruct normal_changed eqn:Hn.
  - unfold config_get_camera_ids, read. unfold bind at 2.
    destruct (reconfigure_run E (map fst (camera_configs w)) false w0 Hnd)
      as (w1 & Hrun & Hmain & Hstore & es & Htr & Hes).
    { intros id Hin. simpl. now apply In_keys_zlookup. }
    exists w1. unfold bind. simpl camera_configs. rewrite Hrun.
    simpl camera_configs. rewrite existsb_local_ids by exact Hnd.
    unfold ret. simpl orb. split; [reflexivity |].
    split; [exact Hmain |]. split.
    + intros id. rewrite Hstore. simpl camera_configs.
      destruct (zlookup (camera_configs w) id) as [lc |] eqn:Hlc; [| reflexivity].
      replace (existsb (Z.eqb id) (map fst (camera_configs w))) with true;
        [reflexivity |].
      symmetry. apply existsb_Zeqb. now apply (zlookup_In_keys _ _ lc).
    + exists es. split; [| exact Hes].
      rewrite Htr. simpl. now rewrite <- app_assoc.
  - exists w0. unfold bind, ret. simpl. split; [reflexivity |].
    split; [reflexivity |]. split.
    + intros id. now destruct (zlookup (camera_configs w) id).
    + exists []. split; [reflexivity | constructor].
Qed.

(** X3.  What a change of the main configuration answers: reload exactly
    when the admin credentials differ, reboot exactly when a field that asks
    for one differs and host reboot is enabled, restart exactly when the
    normal credentials differ and a local camera is configured. *)
Theorem set_main_config_answer (E : Env) (ui_config : dict) (w : world) :
  NoDup (map fst (camera_configs w)) ->
  let old := main_config w in
  let new := new_main_config E old ui_config in
  fst (set_main_config E ui_config w) =
    Ok (mkMainResult
          (credentials_changed E old new "@admin_username" "@admin_password")
          (reboot_field_changed E old new && ENABLE_REBOOT E)
          (credentials_changed E old new "@normal_username" "@normal_password"
           && has_local_camera E (camera_configs w))).
Proof.
  intros Hnd old new.
  destruct (set_main_config_run E ui_config w Hnd) as (w1 & Hrun & _).
  now rewrite Hrun.
Qed.

Lemma set_main_config_answer_witness :
  fst (set_main_config (Example.env true)
         [("admin_password", VStr "newpw"); ("normal_password", VStr "pw")]
         Example.world0) =
    Ok (mkMainResult true true true).
Proof.
  refine (set_main_config_answer (Example.env true)
            [("admin_password", VStr "newpw"); ("normal_password", VStr "pw")]
            Example.world0 _).
  simpl. repeat constructor; simpl; intuition discriminate.
Defined.

(** X4.  What a change of the main configuration stores: the new main
    configuration, with the old list of thread files when the new one
    brings none; and, when the normal credentials differ, every local
    camera's record derived again, every other record as it was.  It
    writes to the store only: no response, no restart of the daemon. *)
Theorem set_main_config_store (E : Env) (ui_config : dict) (w : world) :
  NoDup (map fst (camera_configs w)) ->
  let old := main_config w in
  let new := new_main_config E old ui_config in
  let w1 := snd (set_main_config E ui_config w) in
  main_config w1 = new /\
  lookup new "thread" =
    Some match lookup (main_ui_to_dict E ui_config) "thread" with
         | Some t => t
         | None => get_default old "thread" (VList [])
         end /\
  (forall id lc,
      zlookup (camera_configs w) id = Some lc ->
      zlookup (camera_configs w1) id =
        Some (if credentials_changed E old new
                   "@normal_username" "@normal_password"
                 && local_motion_camera E lc
              then rederived E lc else lc)) /\
  exists es, trace w1 = trace w ++ es /\ Forall store_effect es.
Proof.
  intros Hnd old new w1.
  destruct (set_main_config_run E ui_config w Hnd)
    as (w' & Hrun & Hmain & Hstore & es & Htr & Hes).
  unfold w1. rewrite Hrun. simpl snd.
  split; [exact Hmain |]. split; [| split].
  - unfold new, new_main_config, setdefault, has_key.
    destruct (lookup (main_ui_to_dict E ui_config) "thread") as [t |] eqn:Ht.
    + exact Ht.
    + apply lookup_set_same.
  - intros id lc Hlc. rewrite Hstore, Hlc. subst new old.
    now destruct (credentials_changed _ _ _ _ _ && local_motion_camera E lc).
  - exists (ConfigSetMain new :: es). split; [exact Htr |].
    constructor; [exact I | exact Hes].
Qed.

Lemma set_main_config_store_witness :
  let w1 := snd (set_main_config (Example.env true)
                   [("normal_password", VStr "pw")] Example.world0) in
  zlookup (camera_configs w1) 1 =
    Some (rederived (Example.env true) (Example.local_cam 1)).
Proof.
  intros w1.
  refine (proj1 (proj2 (proj2
    (set_main_config_store (Example.env true) [("normal_password", VStr "pw")]
       Example.world0 _))) 1 (Example.local_cam 1) _).
  - simpl. repeat constructor; simpl; intuition discriminate.
  - reflexivity.
Defined.

(** ** Paths of set_config that do not end in a response *)

(** X5.  A request for the main configuration alone (no camera id) writes
    to the store and nothing else: it never writes a response and never
    restarts the daemon, whatever [set_main_config] asked for. *)
Theorem set_config_main_only_never_responds (E : Env) (ui_config : dict)
        (w : world) :
  exists es,
    trace (snd (set_config E None (OneConfig ui_config) w)) = trace w ++ es /\
    Forall store_effect es.
Proof.
  assert (Hadds : adds store_effect (set_config E None (OneConfig ui_config))).
  { unfold set_config, config_get_camera_ids.
    apply adds_bind; [apply adds_read |]. intros ids.
    apply adds_bind; [| intros res; apply adds_ret].
    apply adds_set_main_config; intros; exact I. }
  destruct (set_config E None (OneConfig ui_config) w) as [res w'] eqn:Hrun.
  exact (Hadds _ _ _ Hrun).
Qed.

(** X6.  A configuration for a camera id that is not configured is
    refused with a 404 and leaves the store and the trace as they were. *)
Theorem set_config_unknown_camera (E : Env) (camera_id : Z) (ui_config : dict)
        (w : world) :
  camera_id <> 0 ->
  ~ In camera_id (map fst (camera_configs w)) ->
  set_config E (Some camera_id) (OneConfig ui_config) w =
    (Raise (HTTPError 404 "no such camera"), w).
Proof.
  intros Hne Hnotin.
  unfold set_config, config_get_camera_ids, read. unfold bind at 1.
  apply Z.eqb_neq in Hne. rewrite Hne.
  unfold set_camera_config.
  replace (existsb (Z.eqb camera_id) (map fst (camera_configs w))) with false;
    [reflexivity |].
  symmetry. apply not_true_is_false. intros H.
  apply existsb_Zeqb in H. contradiction.
Qed.

Lemma set_config_unknown_camera_witness :
  set_config (Example.env false) (Some 9) (OneConfig [("enabled", VBool true)])
             Example.world0 =
    (Raise (HTTPError 404 "no such camera"), Example.world0).
Proof.
  apply set_config_unknown_camera.
  - discriminate.
  - simpl. intuition discriminate.
Defined.

(** ** The loop of a bulk commit *)

Lemma set_items_app (E : Env) (camera_ids : list Z) (len : nat)
      (l1 l2 : list (string * dict)) :
  forall (c : cells) (w : world),
    set_items E camera_ids len (l1 ++ l2) c w =
      bind (set_items E camera_ids len l1 c)
           (set_items E camera_ids len l2) w.
Proof.
  induction l1 as [| it l1 IH]; intros c w; [reflexivity |].
  change (set_items E camera_ids len ((it :: l1) ++ l2) c w)
    with (bind (set_item E camera_ids len it c)
               (set_items E camera_ids len (l1 ++ l2)) w).
  change (set_items E camera_ids len (it :: l1) c)
    with (bind (set_item E camera_ids len it c)
               (set_items E camera_ids len l1)).
  unfold bind.
  destruct (set_item E camera_ids len it c w) as [[c1 | e] w1];
    [apply IH | reflexivity].
Qed.

(** X7.  A bulk commit is not undone when it fails: at an item whose key
    names a camera that is not configured, the loop raises a 404 in the
    world that the items before it have left, and the items after it are
    not looked at. *)
Theorem bulk_commit_stops_at_unknown_camera (E : Env) (camera_ids : list Z)
        (len : nat) (l1 l2 : list (string * dict)) (key : string) (cfg : dict)
        (camera_id : Z) (c c1 : cells) (w w1 : world) :
  key <> "main" ->
  py_int E key = Some camera_id ->
  ~ In camera_id camera_ids ->
  set_items E camera_ids len l1 c w = (Ok c1, w1) ->
  set_items E camera_ids len (l1 ++ (key, cfg) :: l2) c w =
    (Raise (HTTPError 404 "no such camera"), w1).
Proof.
  intros Hkey Hint Hnotin Hrun.
  rewrite set_items_app, (bind_ok _ _ _ _ _ Hrun).
  simpl. unfold bind, set_item.
  apply String.eqb_neq in Hkey. rewrite Hkey, Hint.
  unfold set_camera_config.
  replace (existsb (Z.eqb camera_id) camera_ids) with false; [reflexivity |].
  symmetry. apply not_true_is_false. intros H.
  apply existsb_Zeqb in H. contradiction.
Qed.

Lemma bulk_commit_stops_at_unknown_camera_witness :
  let E := Example.env false in
  exists c1 w1,
    set_items E [1; 3; 5] 2 [("1", [("name", VStr "porch")])]
              initial_cells Example.world0 = (Ok c1, w1) /\
    set_items E [1; 3; 5] 2
              ([("1", [("name", VStr "porch")])] ++ ("7", []) :: [])
              initial_cells Example.world0 =
      (Raise (HTTPError 404 "no such camera"), w1) /\
    zlookup (camera_configs w1) 1 <> zlookup (camera_configs Example.world0) 1.
Proof.
  intros E.
  eexists. eexists. split; [reflexivity |]. split.
  - eapply (bulk_commit_stops_at_unknown_camera E); try reflexivity.
    + discriminate.
    + simpl. intuition discriminate.
  - discriminate.
Defined.

Lemma bind_ret_r {A : Type} (m : M A) (w : world) : bind m ret w = m w.
Proof. unfold bind, ret. now destruct (m w) as [[a | e] w1]. Qed.

Section BulkLocal.
Variable E : Env.
Variable camera_ids : list Z.
Variable len : nat.

Lemma finish_restart (n : nat) (w : world) :
  finish E (mkCells false false true VNone n) w =
    (Ok (mkCells false false true VNone n),
     extend w (restart_effects E ++ [outcome false false VNone])).
Proof.
  unfold finish, finish_tail. simpl. unfold bind.
  rewrite restart_motion_run, emit_extend. unfold ret.
  now rewrite extend_extend.
Qed.

(** The loop over items that all name local cameras, each camera once. *)
Lemma set_items_local (items : list (string * dict)) :
  forall (rs : bool) (n : nat) (w : world),
    Forall (local_item E (camera_configs w)) items ->
    NoDup (map (fun it => py_int E (fst it)) items) ->
    (forall it id, In it items -> py_int E (fst it) = Some id ->
                   In id camera_ids) ->
    items <> [] ->
    (n + List.length items = len)%nat ->
    exists w',
      set_items E camera_ids len items (mkCells false false rs VNone n) w =
        (Ok (mkCells false false true VNone len), w') /\
      trace w' =
        trace w ++ flat_map (camera_write E (camera_configs w)) items
                ++ restart_effects E ++ [outcome false false VNone].
Proof.
  induction items as [| [key cfg] rest IH]; intros rs n w Hloc Hnd Hids Hne Hlen;
    [contradiction |].
  pose proof (Forall_inv Hloc) as (Hkey & id & lc & Hint & Hlc & Hl).
  pose proof (Forall_inv_tail Hloc) as Hrest.
  simpl in Hkey, Hint.
  assert (Hin : existsb (Z.eqb id) camera_ids = true).
  { apply existsb_Zeqb. apply (Hids (key, cfg)); [now left | exact Hint]. }
  set (new := camera_ui_to_dict E cfg lc).
  set (w1 := mkWorld (main_config w) (zset (camera_configs w) id new)
                     (tracker w) (trace w ++ [ConfigSetCamera id new])).
  assert (Hitem : set_item E camera_ids len (key, cfg)
                           (mkCells false false rs VNone n) w =
                  check_finished E len VNone true
                                 (mkCells false false rs VNone n) w1).
  { unfold set_item. apply String.eqb_neq in Hkey. rewrite Hkey, Hint.
    unfold set_camera_config. rewrite Hin.
    unfold config_get_camera, read, the_camera, bind, ret.
    cbn [negb]. cbv beta iota. rewrite Hlc. cbv beta iota. rewrite Hl.
    reflexivity. }
  assert (Hwrite : camera_write E (camera_configs w) (key, cfg)
                   = [ConfigSetCamera id new]).
  { unfold camera_write. simpl. now rewrite Hint, Hlc. }
  cbn [set_items flat_map]. rewrite Hwrite.
  unfold bind at 1. rewrite Hitem.
  unfold check_finished. cbn [reload reboot restart error so_far].
  rewrite orb_true_r. change (py_or VNone VNone) with VNone.
  simpl in Hlen.
  destruct rest as [| it' rest'].
  - replace (len <=? S n)%nat with true
      by (symmetry; apply Nat.leb_le; simpl in Hlen; lia).
    rewrite finish_restart.
    replace (S n) with len by (simpl in Hlen; lia).
    eexists. split; [reflexivity |].
    simpl. rewrite <- !app_assoc. reflexivity.
  - replace (len <=? S n)%nat with false
      by (symmetry; apply Nat.leb_gt; simpl in Hlen; lia).
    unfold ret at 1.
    pose proof (NoDup_cons_iff (py_int E key)
                  (map (fun it => py_int E (fst it)) (it' :: rest')))
      as [Hnd' _].
    destruct (Hnd' Hnd) as [Hnotin Hnd_rest].
    assert (Hother : forall it j, In it (it' :: rest') ->
                       py_int E (fst it) = Some j -> j <> id).
    { intros it j Hit Hj ->. apply Hnotin. rewrite Hint, <- Hj.
      now apply (in_map (fun it => py_int E (fst it))). }
    destruct (IH true (S n) w1) as (w' & Hrun & Htr).
    + apply Forall_forall. intros it Hit.
      pose proof (proj1 (Forall_forall _ _) Hrest it Hit)
        as (Hk & j & lj & Hj & Hlj & Hljl).
      split; [exact Hk |]. exists j, lj. split; [exact Hj |].
      split; [| exact Hljl].
      simpl. rewrite zlookup_zset_other; [exact Hlj |].
      intros Heq. apply (Hother it j Hit Hj). now symmetry.
    + exact Hnd_rest.
    + intros it j Hit Hj. apply (Hids it); [now right | exact Hj].
    + discriminate.
    + simpl in *. lia.
    + exists w'. split; [exact Hrun |].
      assert (Hsame : forall its,
                (forall it, In it its -> In it (it' :: rest')) ->
                flat_map (camera_write E (camera_configs w1)) its
                = flat_map (camera_write E (camera_configs w)) its).
      { induction its as [| a its IHits]; intros Hsub; [reflexivity |].
        cbn [flat_map]. rewrite IHits by (intros; apply Hsub; now right).
        f_equal. unfold camera_write.
        destruct (py_int E (fst a)) as [j |] eqn:Hj; [| reflexivity].
        unfold w1. cbn [camera_configs].
        rewrite zlookup_zset_other; [reflexivity |].
        intros Heq. apply (Hother a j); [apply Hsub; now left | exact Hj |].
        now symmetry. }
      rewrite (Hsame (it' :: rest')) in Htr by auto.
      rewrite Htr. unfold w1. cbn [trace].
      rewrite <- !app_assoc. reflexivity.
Qed.
End BulkLocal.

Lemma sort_without_main (items : list (string * dict)) :
  Forall (fun it => fst it <> "main") items ->
  sort_by implb not_main items = items.
Proof.
  intros Hall. rewrite sort_by_bool.
  assert (Hnm : forall it, In it items -> not_main it = true).
  { intros it Hin. unfold not_main. apply negb_true_iff, String.eqb_neq.
    exact (proj1 (Forall_forall _ _) Hall it Hin). }
  replace (filter (fun x => negb (not_main x)) items) with (@nil (string * dict)).
  - simpl. clear Hall. induction items as [| it items IH]; [reflexivity |].
    simpl. rewrite (Hnm it (or_introl eq_refl)). f_equal.
    apply IH. intros. apply Hnm. now right.
  - symmetry. clear Hall. induction items as [| it items IH]; [reflexivity |].
    simpl. rewrite (Hnm it (or_introl eq_refl)). simpl.
    apply IH. intros. apply Hnm. now right.
Qed.

(** X8.  A bulk commit whose items all name configured local cameras,
    each camera once: every camera's new record is written, in the order of
    the items; then the restart sequence of [finish] runs, once: the motion
    daemon is stopped, once, and then, without SMB shares, started again;
    with SMB shares the mounts are updated and the daemon is started again
    only if that update asks for it; then the one outcome is written, with
    reload and reboot false and no error. *)
Theorem bulk_commit_local_cameras (E : Env) (items : list (string * dict))
        (w : world) :
  items <> [] ->
  Forall (local_item E (camera_configs w)) items ->
  NoDup (map (fun it => py_int E (fst it)) items) ->
  let restart_sequence :=
    MotionStop ::
    (if SMB_SHARES E
     then SmbUpdateMounts :: (if update_mounts_start E then [MotionStart] else [])
     else [MotionStart]) in
  exists w',
    set_config E (Some 0) (ManyConfigs items) w =
      (Ok (mkCells false false true VNone (List.length items)), w') /\
    trace w' =
      trace w ++ flat_map (camera_write E (camera_configs w)) items
              ++ restart_sequence ++ [outcome false false VNone].
Proof.
  intros Hne Hloc Hnd restart_sequence.
  change restart_sequence with (restart_effects E). clear restart_sequence.
  assert (Hnomain : Forall (fun it => fst it <> "main") items).
  { apply Forall_forall. intros it Hin.
    exact (proj1 (proj1 (Forall_forall _ _) Hloc it Hin)). }
  destruct (set_items_local E (map fst (camera_configs w)) (List.length items)
              items false 0 w Hloc Hnd) as (w' & Hrun & Htr).
  - intros it id Hin Hid.
    destruct (proj1 (Forall_forall _ _) Hloc it Hin)
      as (_ & j & lc & Hj & Hlc & _).
    assert (j = id) by congruence. subst j.
    now apply (zlookup_In_keys _ _ lc).
  - exact Hne.
  - reflexivity.
  - exists w'. split; [| exact Htr].
    unfold set_config, config_get_camera_ids, read. unfold bind at 1.
    simpl (0 =? 0). cbv iota. rewrite (sort_without_main _ Hnomain).
    assert (Hpre : forall w0,
              (if (1 <? List.length items)%nat then ret tt
               else if (List.length items =? 0)%nat
                    then emit (LogWarn "no configuration to set") ;;
                         emit (Finish PNothing)
                    else ret tt) w0 = (Ok tt, w0)).
    { intros w0. destruct (1 <? List.length items)%nat; [reflexivity |].
      replace (List.length items =? 0)%nat with false; [reflexivity |].
      symmetry. apply Nat.eqb_neq. destruct items; [contradiction | discriminate]. }
    unfold bind at 1. rewrite Hpre. exact Hrun.
Qed.

Lemma bulk_commit_local_cameras_witness :
  let E := Example.env false in
  let items := [("1", [("name", VStr "porch")])] in
  exists w',
    set_config E (Some 0) (ManyConfigs items) Example.world0 =
      (Ok (mkCells false false true VNone 1), w') /\
    trace w' =
      [ConfigSetCamera 1 (camera_ui_to_dict E [("name", VStr "porch")]
                                            (Example.local_cam 1));
       MotionStop; MotionStart; outcome false false VNone].
Proof.
  intros E items.
  apply (bulk_commit_local_cameras E items Example.world0).
  - discriminate.
  - constructor; [| constructor].
    split; [discriminate |].
    exists 1, (Example.local_cam 1). repeat split.
  - simpl. repeat constructor. simpl. tauto.
Defined.

(** ** The completions that peers deliver to a bulk commit *)

Lemma fold_py_or_truthy (errors : list pyval) :
  forall e0,
    truthy (fold_left py_or errors e0) = truthy e0 || existsb truthy errors.
Proof.
  induction errors as [| e errors IH]; intros e0; simpl.
  - now rewrite orb_false_r.
  - rewrite IH. unfold py_or.
    destruct (truthy e0) eqn:H0; simpl; [now rewrite H0 | reflexivity].
Qed.

Lemma fold_py_or_first (errors : list pyval) (e0 : pyval) :
  truthy e0 = true -> fold_left py_or errors e0 = e0.
Proof.
  intros H0. induction errors as [| e errors IH]; simpl; [reflexivity |].
  unfold py_or at 2. now rewrite H0.
Qed.

(** X9.  The answers of the peers to a bulk commit: each counts once and
    none restarts the daemon by itself; [finish] runs at the answer that
    completes the count, not before, in the world as the commit left it;
    the error it reports is set exactly when some item or answer reported
    one, and an error already held is kept. *)
Theorem deliver_finishes_at_last_answer (E : Env) (len : nat)
        (errors : list pyval) :
  forall (c : cells) (w : world),
    errors <> [] ->
    (so_far c + List.length errors = len)%nat ->
    deliver E len errors c w =
      finish E (mkCells (reload c) (reboot c) (restart c)
                        (fold_left py_or errors (error c)) len) w /\
    truthy (fold_left py_or errors (error c)) =
      truthy (error c) || existsb truthy errors /\
    (truthy (error c) = true -> fold_left py_or errors (error c) = error c).
Proof.
  induction errors as [| e errors IH]; intros c w Hne Hlen; [contradiction |].
  split; [| split; [apply fold_py_or_truthy | apply fold_py_or_first]].
  cbn [deliver]. unfold on_finish_wrapper, check_finished.
  cbn [reload reboot restart error so_far]. rewrite orb_false_r.
  simpl in Hlen.
  destruct errors as [| e' errors'].
  - replace (len <=? S (so_far c))%nat with true
      by (symmetry; apply Nat.leb_le; simpl in Hlen; lia).
    replace (S (so_far c)) with len by (simpl in Hlen; lia).
    cbn [deliver fold_left]. apply bind_ret_r.
  - replace (len <=? S (so_far c))%nat with false
      by (symmetry; apply Nat.leb_gt; simpl in Hlen; lia).
    unfold bind at 1. unfold ret at 1.
    destruct (IH (mkCells (reload c) (reboot c) (restart c)
                          (py_or (error c) e) (S (so_far c))) w) as [Hrun _].
    + discriminate.
    + simpl in *. lia.
    + exact Hrun.
Qed.

Lemma deliver_finishes_at_last_answer_witness :
  deliver (Example.env false) 3 [VNone; VStr "timeout"]
          (mkCells false false false VNone 1) Example.world0 =
    finish (Example.env false)
           (mkCells false false false (VStr "timeout") 3) Example.world0.
Proof.
  refine (proj1 (deliver_finishes_at_last_answer (Example.env false) 3
                   [VNone; VStr "timeout"]
                   (mkCells false false false VNone 1) Example.world0 _ _)).
  - discriminate.
  - reflexivity.
Defined.

(** ** The configuration of one camera *)

(** X10.  A configuration for one local camera: the new record is written;
    then the restart sequence of [finish] runs: the motion daemon is
    stopped, once, and then, without SMB shares, started again; with SMB
    shares the mounts are updated and the daemon is started again only if
    that update asks for it; then the outcome is written, with reload and
    reboot false and no error. *)
Theorem set_config_single_local (E : Env) (camera_id : Z)
        (ui_config local_config : dict) (w : world) :
  camera_id <> 0 ->
  zlookup (camera_configs w) camera_id = Some local_config ->
  local_motion_camera E local_config = true ->
  let new := camera_ui_to_dict E ui_config local_config in
  let restart_sequence :=
    MotionStop ::
    (if SMB_SHARES E
     then SmbUpdateMounts :: (if update_mounts_start E then [MotionStart] else [])
     else [MotionStart]) in
  set_config E (Some camera_id) (OneConfig ui_config) w =
    (Ok (mkCells false false true VNone 0),
     mkWorld (main_config w) (zset (camera_configs w) camera_id new)
             (tracker w)
             (trace w ++ ConfigSetCamera camera_id new
                      :: restart_sequence ++ [outcome false false VNone])).
Proof.
  intros Hne Hcam Hlocal new restart_sequence.
  change restart_sequence with (restart_effects E). clear restart_sequence.
  unfold set_config, config_get_camera_ids, read. unfold bind at 1.
  apply Z.eqb_neq in Hne. rewrite Hne.
  unfold set_camera_config.
  replace (existsb (Z.eqb camera_id) (map fst (camera_configs w))) with true
    by (symmetry; apply existsb_Zeqb;
        now apply (zlookup_In_keys _ _ local_config)).
  unfold config_get_camera, read, the_camera, bind, ret.
  cbn [negb]. cbv beta iota. rewrite Hcam. cbv beta iota. rewrite Hlocal.
  unfold config_set_camera, on_finish_single. fold new.
  cbn [reload reboot so_far initial_cells].
  rewrite finish_restart. unfold extend. cbn [main_config camera_configs
                                                tracker trace].
  now rewrite <- app_assoc.
Qed.

Lemma set_config_single_local_witness :
  let E := Example.env false in
  let new := camera_ui_to_dict E [("name", VStr "porch")] (Example.local_cam 1) in
  trace (snd (set_config E (Some 1) (OneConfig [("name", VStr "porch")])
                         Example.world0)) =
    [ConfigSetCamera 1 new; MotionStop; MotionStart; outcome false false VNone].
Proof.
  intros E new.
  refine (f_equal (fun out => trace (snd out))
            (set_config_single_local E 1 [("name", VStr "porch")]
               (Example.local_cam 1) Example.world0 _ _ _)).
  - discriminate.
  - reflexivity.
  - reflexivity.
Defined.

(** X11.  A configuration for one remote camera.  Without the enabled flag
    it is refused with a KeyError, and nothing is written, sent or answered.
    With the enabled flag and a name, the mirror is written and the payload
    is sent, and no response is written before the peer answers; the peer's
    answer then ends the request with the peer's error in the outcome, and
    the motion daemon is not restarted. *)
Theorem set_config_single_remote (E : Env) (camera_id : Z)
        (ui_config local_config : dict) (w : world) :
  camera_id <> 0 ->
  zlookup (camera_configs w) camera_id = Some local_config ->
  local_motion_camera E local_config = false ->
  remote_camera E local_config = true ->
  let out := set_config E (Some camera_id) (OneConfig ui_config) w in
  (lookup ui_config "enabled" = None ->
   out = (Raise (KeyError "enabled"), w)) /\
  (forall enabled : pyval,
      lookup ui_config "enabled" = Some enabled ->
      has_key ui_config "name" = true ->
      let mirror := set local_config "@enabled" enabled in
      let w1 := mkWorld (main_config w)
                        (zset (camera_configs w) camera_id mirror) (tracker w)
                        (trace w ++
                         [ConfigSetCamera camera_id mirror;
                          RemoteSetConfig mirror
                                          (set ui_config "enabled" (VBool true))]) in
      out = (Ok initial_cells, w1) /\
      responses (trace w1) = responses (trace w) /\
      forall error : pyval,
        on_finish_wrapper (on_finish_single E) error initial_cells w1 =
          (Ok (mkCells false false false error 0),
           extend w1 [outcome false false error])).
Proof.
  intros Hne Hcam Hlocal Hremote out.
  assert (Hout : out =
                 set_camera_config E (map fst (camera_configs w)) camera_id
                                   ui_config (on_finish_single E) initial_cells w).
  { unfold out, set_config, config_get_camera_ids, read. unfold bind at 1.
    apply Z.eqb_neq in Hne. now rewrite Hne. }
  assert (Hin : existsb (Z.eqb camera_id) (map fst (camera_configs w)) = true).
  { apply existsb_Zeqb. now apply (zlookup_In_keys _ _ local_config). }
  rewrite Hout. clear Hout out.
  assert (Hstep :
             set_camera_config E (map fst (camera_configs w)) camera_id
                               ui_config (on_finish_single E) initial_cells w
             = (enabled <- item ui_config "enabled" ;;
                let local_config := set local_config "@enabled" enabled in
                config_set_camera camera_id local_config ;;
                if has_key ui_config "name" then
                  let ui_config := set ui_config "enabled" (VBool true) in
                  emit (RemoteSetConfig local_config ui_config) ;;
                  ret initial_cells
                else
                  on_finish_single E VNone false initial_cells) w).
  { unfold set_camera_config. rewrite Hin.
    unfold config_get_camera, read, the_camera. unfold bind at 1 2. unfold ret at 1.
    cbn [negb]. cbv beta iota. rewrite Hcam. cbv beta iota.
    now rewrite Hlocal, Hremote. }
  rewrite Hstep. clear Hstep.
  split.
  - intros Hen. unfold item, bind. now rewrite Hen.
  - intros enabled Hen Hname mirror w1. split; [| split].
    + unfold item, config_set_camera, bind, ret. rewrite Hen.
      cbv beta iota zeta. rewrite Hname.
      rewrite emit_extend. unfold extend, w1, mirror.
      cbn [main_config camera_configs tracker trace].
      now rewrite <- app_assoc.
    + unfold w1. cbn [trace]. rewrite responses_app. simpl.
      now rewrite app_nil_r.
    + reflexivity.
Qed.

Lemma set_config_single_remote_witness :
  let E := Example.env false in
  let ui_config := [("enabled", VBool true); ("name", VStr "gate")] in
  set_config E (Some 3) (OneConfig [("name", VStr "gate")]) Example.world0 =
    (Raise (KeyError "enabled"), Example.world0) /\
  fst (set_config E (Some 3) (OneConfig ui_config) Example.world0) =
    Ok initial_cells.
Proof.
  intros E ui_config. split.
  - refine (proj1 (set_config_single_remote E 3 [("name", VStr "gate")]
                     (Example.remote_cam 3 true) Example.world0 _ _ _ _) _).
    + discriminate.
    + reflexivity.
    + reflexivity.
    + reflexivity.
    + reflexivity.
  - refine (f_equal fst
              (proj1 (proj2 (set_config_single_remote E 3 ui_config
                               (Example.remote_cam 3 true)
                               Example.world0 _ _ _ _)
                            (VBool true) _ _))).
    + discriminate.
    + reflexivity.
    + reflexivity.
    + reflexivity.
    + reflexivity.
    + reflexivity.
Defined.

(** ** Names of attachments *)

Lemma is_alnum_underscore : is_alnum "_" = false.
Proof. reflexivity. Qed.

(** X12.  The name that [re.sub('[^a-zA-Z0-9]', '_', ...)] makes for an
    archive or a movie has the length of the name it was given, holds
    letters, digits and underscores only, and is left as it is when it is
    made safe again. *)
Theorem sanitize_safe (s : string) :
  String.length (sanitize s) = String.length s /\
  Forall (fun c => is_alnum c = true \/ c = "_"%char)
         (list_ascii_of_string (sanitize s)) /\
  sanitize (sanitize s) = sanitize s.
Proof.
  induction s as [| c s (IHlen & IHsafe & IHidem)]; simpl.
  - repeat split. constructor.
  - split; [now rewrite IHlen |]. split.
    + constructor; [| exact IHsafe].
      destruct (is_alnum c) eqn:Hc; [now left | now right].
    + rewrite IHidem. destruct (is_alnum c) eqn:Hc.
      * now rewrite Hc.
      * now rewrite is_alnum_underscore.
Qed.

Lemma basename_no_slash (s : string) : contains_slash (basename s) = false.
Proof.
  induction s as [| c s IH]; simpl; [reflexivity |].
  destruct (contains_slash s) eqn:Hs; [exact IH |].
  destruct (c =? "/")%char eqn:Hc; [exact Hs |].
  simpl. now rewrite Hc, Hs.
Qed.

Lemma basename_suffix (s : string) :
  exists directory, s = (directory ++ basename s)%string.
Proof.
  induction s as [| c s [d IH]]; simpl.
  - now exists "".
  - destruct (contains_slash s).
    + exists (String c d). simpl. now rewrite <- IH.
    + destruct (c =? "/")%char.
      * now exists (String c "").
      * now exists "".
Qed.

Lemma basename_plain (s : string) : contains_slash s = false -> basename s = s.
Proof.
  destruct s as [| c s]; simpl; [reflexivity |].
  intros H. apply orb_false_iff in H as [Hc Hs]. now rewrite Hs, Hc.
Qed.

Section DownloadProperties.
Variable E : Env.
Variable get_media_content : dict -> string -> string -> option string.
Variable remote_get_media_content : dict -> string -> string -> M unit.

(** X13.  A download from a remote camera: when the peer answers with an
    error, the response is the JSON error that names the peer and the error,
    and no file header is set; otherwise the file is served under the last
    component of the requested name, which is that name's end and holds no
    ['/'].  On a local camera the camera's name and an underscore come
    before that component. *)
Theorem download_attachment_name (media_type content_type : string)
        (camera_id : Z) (camera_config : dict) (filename name : string)
        (response : option string) (error : pyval) (w : world) :
  contains_slash (basename filename) = false /\
  (exists directory, filename = (directory ++ basename filename)%string) /\
  (truthy error = true ->
   download_on_response E media_type content_type camera_config filename
                        response error w =
     (Ok tt,
      extend w [SetHeader "Content-Type" "application/json";
                Finish (PJson
                  [("error",
                    VStr ("Failed to download " ++ media_type ++ " from "
                          ++ pretty_camera_url E camera_config ++ ": "
                          ++ py_str E error ++ "."))])])) /\
  (truthy error = false ->
   download_on_response E media_type content_type camera_config filename
                        response error w =
     (Ok tt,
      extend w [SetHeader "Content-Type" content_type;
                SetHeader "Content-Disposition"
                          ("attachment; filename=" ++ basename filename ++ ";");
                Finish match response with
                       | Some c => PContent c
                       | None => PNothing
                       end])) /\
  (zlookup (camera_configs w) camera_id = Some camera_config ->
   local_motion_camera E camera_config = true ->
   lookup camera_config "@name" = Some (VStr name) ->
   download E get_media_content remote_get_media_content
            media_type content_type camera_id filename w =
     (Ok tt,
      extend w [SetHeader "Content-Type" content_type;
                SetHeader "Content-Disposition"
                          ("attachment; filename="
                           ++ (name ++ "_" ++ basename filename) ++ ";");
                Finish match get_media_content camera_config filename
                                               media_type with
                       | Some c => PContent c
                       | None => PNothing
                       end])).
Proof.
  split; [apply basename_no_slash |]. split; [apply basename_suffix |].
  split; [| split].
  - intros Herr. unfold download_on_response. rewrite Herr.
    unfold finish_json, set_header, bind. rewrite !emit_extend.
    now rewrite extend_extend.
  - intros Herr. unfold download_on_response. rewrite Herr.
    unfold finish_content, set_header, attachment, bind. rewrite !emit_extend.
    now rewrite !extend_extend.
  - intros Hcam Hlocal Hname.
    unfold download, config_get_camera, read, the_camera, str_item, item,
      bind, ret.
    rewrite Hcam. cbv beta iota. rewrite Hlocal, Hname. cbv beta iota.
    unfold finish_content, set_header, attachment. rewrite !emit_extend.
    now rewrite !extend_extend.
Qed.
End DownloadProperties.

Section PreparedProperties.
Variable E : Env.
Variable get_prepared_cache : string -> option string.

Lemma serve_prepared_run (missing : option string -> bool)
      (content_type extension : string) (camera_config : dict)
      (group key name : string) (w : world) :
  lookup camera_config "@name" = Some (VStr name) ->
  serve_prepared get_prepared_cache missing content_type extension
                 camera_config group key w =
    if missing (get_prepared_cache key)
    then (Raise (HTTPError 404 "no such key"),
          extend w [LogError (no_prepared_data key)])
    else (Ok tt,
          extend w [SetHeader "Content-Type" content_type;
                    SetHeader "Content-Disposition"
                              ("attachment; filename="
                               ++ sanitize (name ++ "_" ++ group)
                               ++ extension ++ ";");
                    Finish match get_prepared_cache key with
                           | Some c => PContent c
                           | None => PNothing
                           end]).
Proof.
  intros Hname. unfold serve_prepared.
  destruct (missing (get_prepared_cache key)).
  { unfold bind, raise. now rewrite emit_extend. }
  unfold str_item, item, bind, ret. rewrite Hname. cbv beta iota.
  unfold finish_content, set_header. rewrite !emit_extend.
  now rewrite !extend_extend.
Qed.

(** X14.  A request for a prepared archive of a local camera: when the
    cache has nothing under the key, or has empty data, an error naming the
    key is logged and the answer is a 404, with no header set and nothing
    else done; otherwise the data are served as application/zip under the
    safe name made of the camera's name, an underscore and the group. *)
Theorem zipped_serves_prepared (remote_get local_make remote_make : dict -> M unit)
        (camera_id : Z) (camera_config : dict) (group key name : string)
        (r : request) (w : world) :
  get_argument r "key" = Some key -> key <> ""%string ->
  zlookup (camera_configs w) camera_id = Some camera_config ->
  local_motion_camera E camera_config = true ->
  lookup camera_config "@name" = Some (VStr name) ->
  let out := zipped E get_prepared_cache remote_get local_make remote_make
                    camera_id group r w in
  ((get_prepared_cache key = None \/ get_prepared_cache key = Some ""%string) ->
   out = (Raise (HTTPError 404 "no such key"),
          extend w [LogError (no_prepared_data key)])) /\
  (forall data,
      get_prepared_cache key = Some data -> data <> ""%string ->
      out = (Ok tt,
             extend w [SetHeader "Content-Type" "application/zip";
                       SetHeader "Content-Disposition"
                                 ("attachment; filename="
                                  ++ sanitize (name ++ "_" ++ group)
                                  ++ ".zip;");
                       Finish (PContent data)])).
Proof.
  intros Hkey Hne Hcam Hlocal Hname out.
  assert (Hout : out = serve_prepared get_prepared_cache not_data
                         "application/zip" ".zip" camera_config group key w).
  { unfold out, zipped, config_get_camera, read, the_camera, bind, ret.
    rewrite Hcam, Hkey. cbv beta iota.
    change (truthy (of_opt (Some key))) with (negb (key =? "")%string).
    apply String.eqb_neq in Hne. rewrite Hne. simpl negb. cbv iota.
    now rewrite Hlocal. }
  rewrite Hout, (serve_prepared_run _ _ _ _ _ _ name _ Hname).
  split.
  - intros [Hmiss | Hmiss]; rewrite Hmiss; reflexivity.
  - intros data Hdata Hd. rewrite Hdata. unfold not_data. simpl.
    apply String.eqb_neq in Hd. now rewrite Hd.
Qed.

(** X15.  A request for a prepared time-lapse movie of a local camera
    enters the download branch of [timelapse]: only when the cache has
    nothing under the key, an error naming the key is logged and the answer
    is a 404, with no header set and nothing else done; data that are there
    are served as video/x-msvideo under the safe name, also when they are
    empty. *)
Theorem timelapse_serves_prepared (remote_get : dict -> M unit)
        (check : M unit) (camera_id : Z) (camera_config : dict)
        (group key name : string) (r : request) (w : world) :
  get_argument r "key" = Some key -> key <> ""%string ->
  zlookup (camera_configs w) camera_id = Some camera_config ->
  local_motion_camera E camera_config = true ->
  lookup camera_config "@name" = Some (VStr name) ->
  let out := timelapse E (timelapse_download E get_prepared_cache remote_get
                                             camera_id group key)
                       check camera_id group r w in
  (get_prepared_cache key = None ->
   out = (Raise (HTTPError 404 "no such key"),
          extend w [LogError (no_prepared_data key)])) /\
  (forall data,
      get_prepared_cache key = Some data ->
      out = (Ok tt,
             extend w [SetHeader "Content-Type" "video/x-msvideo";
                       SetHeader "Content-Disposition"
                                 ("attachment; filename="
                                  ++ sanitize (name ++ "_" ++ group)
                                  ++ ".avi;");
                       Finish (PContent data)])).
Proof.
  intros Hkey Hne Hcam Hlocal Hname out.
  assert (Hout : out = serve_prepared get_prepared_cache is_None
                         "video/x-msvideo" ".avi" camera_config group key w).
  { unfold out, timelapse, truthy_argument, timelapse_download,
      config_get_camera, read, the_camera, bind, ret.
    rewrite Hcam, Hkey. cbv beta iota.
    change (truthy (of_opt (Some key))) with (negb (key =? "")%string).
    apply String.eqb_neq in Hne. rewrite Hne. cbn [negb]. cbv beta iota.
    rewrite Hcam. cbv beta iota. now rewrite Hlocal. }
  rewrite Hout, (serve_prepared_run _ _ _ _ _ _ name _ Hname).
  split.
  - intros Hmiss. now rewrite Hmiss.
  - intros data Hdata. now rewrite Hdata.
Qed.
End PreparedProperties.

Lemma zipped_serves_prepared_witness :
  let E := Example.env false in
  let cache := fun key => if (key =? "k1")%string then Some "PK" else None in
  let r := mkRequest "GET" "/picture/1/zipped/2014-01-01/" "" [("key", "k2")] in
  zipped E cache (fun _ => ret tt) (fun _ => ret tt) (fun _ => ret tt)
         1 "2014-01-01" r Example.world0 =
    (Raise (HTTPError 404 "no such key"),
     extend Example.world0 [LogError (no_prepared_data "k2")]).
Proof.
  intros E cache r.
  refine (proj1 (zipped_serves_prepared E cache _ _ _ 1 (Example.local_cam 1)
                   "2014-01-01" "k2" "yard" r Example.world0 _ _ _ _ _) _).
  - reflexivity.
  - discriminate.
  - reflexivity.
  - reflexivity.
  - reflexivity.
  - left. reflexivity.
Defined.

Lemma timelapse_serves_prepared_witness :
  let E := Example.env false in
  let cache := fun key => if (key =? "k1")%string then Some "" else None in
  let r := mkRequest "GET" "/picture/1/timelapse/2014-01-01/" ""
                     [("key", "k1")] in
  timelapse E (timelapse_download E cache (fun _ => ret tt) 1 "2014-01-01" "k1")
            (ret tt) 1 "2014-01-01" r Example.world0 =
    (Ok tt,
     extend Example.world0
            [SetHeader "Content-Type" "video/x-msvideo";
             SetHeader "Content-Disposition"
                       "attachment; filename=yard_2014_01_01.avi;";
             Finish (PContent "")]).
Proof.
  intros E cache r.
  refine (proj2 (timelapse_serves_prepared E cache _ _ 1 (Example.local_cam 1)
                   "2014-01-01" "k1" "yard" r Example.world0 _ _ _ _ _) "" _).
  - reflexivity.
  - discriminate.
  - reflexivity.
  - reflexivity.
  - reflexivity.
  - reflexivity.
Defined.

(** ** Merged views of a remote camera *)

Lemma find_app_last {A : Type} (p : A -> bool) (l : list A) (a : A) :
  find p (l ++ [a]) =
    match find p l with
    | Some x => Some x
    | None => if p a then Some a else None
    end.
Proof.
  induction l as [| x l IH]; simpl; [reflexivity |].
  destruct (p x); [reflexivity | exact IH].
Qed.

(** X16.  In the view that merges a remote camera's local record into the
    peer's configuration, a field named by a local key (without its ['@'])
    has the local value, the item that comes last winning when several
    local keys give the same name; every other field is the peer's. *)
Theorem merge_local_lookup (local_config : dict) :
  forall (remote_ui_config : dict) (k : string),
    lookup (merge_local local_config remote_ui_config) k =
      match find (fun kv => (strip_at (fst kv) =? k)%string)
                 (rev local_config) with
      | Some kv => Some (snd kv)
      | None => lookup remote_ui_config k
      end.
Proof.
  induction local_config as [| [k0 v0] l IH]; intros r k; [reflexivity |].
  change (merge_local ((k0, v0) :: l) r)
    with (merge_local l (set r (strip_at k0) v0)).
  rewrite IH. simpl rev. rewrite find_app_last.
  destruct (find _ (rev l)); [reflexivity |].
  simpl. destruct (strip_at k0 =? k)%string eqn:Hk.
  - apply String.eqb_eq in Hk. subst k. apply lookup_set_same.
  - apply String.eqb_neq in Hk. now apply lookup_set_other.
Qed.

Section GetConfigProperties.
Variable E : Env.
Variable main_dict_to_ui : dict -> dict.

(** X17.  The configuration of camera 0 is the main configuration, as
    for no camera at all; a camera id that is not configured is a 404 with
    no response written; a camera that is neither local nor remote gets no
    response at all. *)
Theorem get_config_dispatch (camera_id : Z) (w : world) :
  get_config E main_dict_to_ui (Some 0) w = get_config E main_dict_to_ui None w /\
  get_config E main_dict_to_ui None w =
    (Ok tt, extend w [SetHeader "Content-Type" "application/json";
                      Finish (PJson (main_dict_to_ui (main_config w)))]) /\
  (camera_id <> 0 -> ~ In camera_id (map fst (camera_configs w)) ->
   get_config E main_dict_to_ui (Some camera_id) w =
     (Raise (HTTPError 404 "no such camera"), w)) /\
  (forall local_config,
      camera_id <> 0 ->
      zlookup (camera_configs w) camera_id = Some local_config ->
      local_motion_camera E local_config = false ->
      remote_camera E local_config = false ->
      get_config E main_dict_to_ui (Some camera_id) w = (Ok tt, w)).
Proof.
  split; [reflexivity |]. split; [| split].
  - unfold get_config, config_get_main, read, finish_json, set_header, bind.
    rewrite !emit_extend. now rewrite extend_extend.
  - intros Hne Hnotin. unfold get_config.
    apply Z.eqb_neq in Hne. rewrite Hne. cbn [negb]. cbv beta iota.
    unfold config_get_camera_ids, read, bind.
    replace (existsb (Z.eqb camera_id) (map fst (camera_configs w))) with false;
      [reflexivity |].
    symmetry. apply not_true_is_false. intros H.
    apply existsb_Zeqb in H. contradiction.
  - intros local_config Hne Hcam Hlocal Hremote. unfold get_config.
    apply Z.eqb_neq in Hne. rewrite Hne. cbn [negb]. cbv beta iota.
    unfold config_get_camera_ids, config_get_camera, read, the_camera, bind, ret.
    replace (existsb (Z.eqb camera_id) (map fst (camera_configs w))) with true
      by (symmetry; apply existsb_Zeqb;
          now apply (zlookup_In_keys _ _ local_config)).
    cbn [negb]. cbv beta iota. rewrite Hcam. cbv beta iota.
    now rewrite Hlocal, Hremote.
Qed.

(** X18.  The answer of a peer to [get_config]: an error gives the JSON
    error that names the peer and the error; a configuration is answered
    with the local record merged into it, and its [device_url] is the
    peer's pretty URL whatever the peer or the local record say. *)
Theorem get_config_on_response_answer (local_config remote_ui_config : dict)
        (error : pyval) (w : world) :
  (truthy error = true ->
   get_config_on_response E local_config (Some remote_ui_config) error w =
     (Ok tt,
      extend w [SetHeader "Content-Type" "application/json";
                Finish (PJson
                  [("error",
                    VStr ("Failed to get remote camera configuration for "
                          ++ pretty_camera_url E local_config ++ ": "
                          ++ py_str E error ++ "."))])])) /\
  (truthy error = false ->
   exists view,
     get_config_on_response E local_config (Some remote_ui_config) error w =
       (Ok tt, extend w [SetHeader "Content-Type" "application/json";
                         Finish (PJson view)]) /\
     lookup view "device_url" = Some (VStr (pretty_camera_url E local_config)) /\
     forall k,
       k <> "device_url"%string ->
       lookup view k =
         match find (fun kv => (strip_at (fst kv) =? k)%string)
                    (rev local_config) with
         | Some kv => Some (snd kv)
         | None => lookup remote_ui_config k
         end).
Proof.
  split.
  - intros Herr. unfold get_config_on_response. rewrite Herr.
    unfold finish_json, set_header, bind. rewrite !emit_extend.
    now rewrite extend_extend.
  - intros Herr. unfold get_config_on_response. rewrite Herr.
    eexists. split; [| split].
    + unfold finish_json, set_header, bind. rewrite !emit_extend.
      rewrite extend_extend. reflexivity.
    + apply lookup_set_same.
    + intros k Hk. rewrite lookup_set_other by congruence.
      apply merge_local_lookup.
Qed.
End GetConfigProperties.

(** ** Removing a camera *)

Lemma zlookup_zremove_same {V : Type} (l : list (Z * V)) (k : Z) :
  zlookup (zremove l k) k = None.
Proof.
  induction l as [| [k' v] l IH]; simpl; [reflexivity |].
  destruct (k' =? k) eqn:Hk; [exact IH |]. simpl. now rewrite Hk.
Qed.

Lemma zlookup_zremove_other {V : Type} (l : list (Z * V)) (k k' : Z) :
  k <> k' -> zlookup (zremove l k) k' = zlookup l k'.
Proof.
  intros Hne. induction l as [| [k0 v] l IH]; simpl; [reflexivity |].
  destruct (k0 =? k) eqn:Hk; simpl.
  - apply Z.eqb_eq in Hk. subst k0.
    apply Z.eqb_neq in Hne. now rewrite Hne.
  - now rewrite IH.
Qed.

(** X19.  Removing a configured camera takes its record, and no other,
    out of the store; the motion daemon is stopped and started exactly when
    the camera was a local one; the response is the empty JSON object. *)
Theorem rem_camera_restarts_for_local (E : Env) (camera_id : Z)
        (camera_config : dict) (w : world) :
  zlookup (camera_configs w) camera_id = Some camera_config ->
  exists w',
    rem_camera E camera_id w = (Ok tt, w') /\
    zlookup (camera_configs w') camera_id = None /\
    (forall j, j <> camera_id ->
               zlookup (camera_configs w') j = zlookup (camera_configs w) j) /\
    main_config w' = main_config w /\
    trace w' =
      trace w
      ++ (if local_motion_camera E camera_config
          then [MotionStop; MotionStart] else [])
      ++ [SetHeader "Content-Type" "application/json"; Finish (PJson [])].
Proof.
  intros Hcam.
  unfold rem_camera, config_get_camera, read, the_camera, config_rem_camera,
    finish_json, set_header, bind, ret.
  rewrite Hcam. cbv beta iota.
  destruct (local_motion_camera E camera_config);
    rewrite ?emit_extend; eexists; (split; [reflexivity |]);
    simpl; (split; [apply zlookup_zremove_same |]);
    (split; [intros j Hj; apply zlookup_zremove_other; congruence |]);
    (split; [reflexivity |]); now rewrite <- ?app_assoc.
Qed.

Lemma rem_camera_restarts_for_local_witness :
  exists w',
    rem_camera (Example.env false) 3 Example.world0 = (Ok tt, w') /\
    zlookup (camera_configs w') 3 = None /\
    (forall j, j <> 3 ->
               zlookup (camera_configs w') j
               = zlookup (camera_configs Example.world0) j) /\
    main_config w' = main_config Example.world0 /\
    trace w' =
      trace Example.world0
      ++ (if local_motion_camera (Example.env false) (Example.remote_cam 3 true)
          then [MotionStop; MotionStart] else [])
      ++ [SetHeader "Content-Type" "application/json"; Finish (PJson [])].
Proof.
  apply (rem_camera_restarts_for_local (Example.env false) 3
           (Example.remote_cam 3 true) Example.world0).
  reflexivity.
Defined.

(** ** The local listing: its gate and its order *)

(** X20.  With the main configuration disabled, the local listing answers
    the empty list at once, whatever cameras are configured: it reads no
    camera and asks no peer. *)
Theorem list_cameras_main_disabled (E : Env) (r : request) (w : world) :
  local_listing r ->
  truthy (get (main_config w) "@enabled") = false ->
  list_cameras E r w = (Ok (0%nat, []), extend w (listing_response [])).
Proof.
  intros (Hp1 & Hp2 & Hp3) Hmain.
  unfold list_cameras. rewrite Hp1, Hp2, Hp3.
  unfold config_get_camera_ids, config_get_main, read, bind.
  rewrite Hmain. simpl.
  unfold finish_json_cameras_empty, set_header, bind. rewrite !emit_extend.
  unfold ret. now rewrite extend_extend.
Qed.

Lemma list_cameras_main_disabled_witness :
  let w := mkWorld (Example.main_cfg false)
                   [(1, Example.local_cam 1); (3, Example.remote_cam 3 true)]
                   Example.idle [] in
  list_cameras (Example.env false) (mkRequest "GET" "/config/list/" "" []) w =
    (Ok (0%nat, []), extend w (listing_response [])).
Proof.
  intros w. apply list_cameras_main_disabled.
  - repeat split.
  - reflexivity.
Defined.

Lemma list_le_total (l1 l2 : list string) :
  list_le l1 l2 = true \/ list_le l2 l1 = true.
Proof.
  revert l2. induction l1 as [| x l1 IH]; intros [| y l2]; simpl; auto.
  rewrite (String.compare_antisym x y).
  destruct (String.compare y x) eqn:Hc; simpl; auto.
Qed.

Lemma py_le_total (a b : pyval) : py_le a b = true \/ py_le b a = true.
Proof.
  destruct a as [| x | x | x | x], b as [| y | y | y | y]; simpl; auto;
    try (destruct (Z.leb_spec (Z.b2z x) (Z.b2z y)); [now left | right];
         apply Z.leb_le; lia);
    try (destruct (Z.leb_spec (Z.b2z x) y); [now left | right];
         apply Z.leb_le; lia);
    try (destruct (Z.leb_spec x (Z.b2z y)); [now left | right];
         apply Z.leb_le; lia);
    try (destruct (Z.leb_spec x y); [now left | right]; apply Z.leb_le; lia).
  - apply String.leb_total.
  - apply list_le_total.
Qed.

Section SortSorted.
Context {A K : Type} (le : K -> K -> bool) (key : A -> K).
Hypothesis le_total : forall a b, le a b = true \/ le b a = true.

Lemma insert_by_sorted (x : A) (l : list A) :
  Sorted (fun a b => le (key a) (key b) = true) l ->
  Sorted (fun a b => le (key a) (key b) = true) (insert_by le key x l).
Proof.
  induction l as [| y l IH]; intros Hs; simpl.
  - repeat constructor.
  - destruct (le (key x) (key y)) eqn:Hxy.
    + constructor; [exact Hs | now constructor].
    + assert (Hyx : le (key y) (key x) = true).
      { destruct (le_total (key x) (key y)); congruence. }
      apply Sorted_inv in Hs as [Hs Hhd].
      constructor; [now apply IH |].
      destruct l as [| z l]; simpl.
      * now constructor.
      * destruct (le (key x) (key z)); constructor; auto.
        now inversion Hhd.
Qed.

Lemma sort_by_sorted (l : list A) :
  Sorted (fun a b => le (key a) (key b) = true) (sort_by le key l).
Proof.
  induction l as [| x l IH]; simpl; [constructor |].
  now apply insert_by_sorted.
Qed.
End SortSorted.

Lemma sorted_by_id_sorted (cameras : list dict) : Sorted id_le (sorted_by_id cameras).
Proof.
  unfold sorted_by_id.
  set (keyed := map (fun c => (get c "id", c)) cameras).
  assert (Hkeys : Forall (fun p => fst p = get (snd p) "id")
                         (sort_by py_le fst keyed)).
  { apply Forall_forall. intros p Hp.
    apply (Permutation_in p (sort_by_perm py_le fst keyed)) in Hp.
    unfold keyed in Hp. apply in_map_iff in Hp as (c & <- & _). reflexivity. }
  pose proof (sort_by_sorted py_le (@fst pyval dict) py_le_total keyed) as Hs.
  induction Hs as [| p l Hs IH Hhd]; simpl; [constructor |].
  pose proof (Forall_inv Hkeys) as Hp.
  pose proof (Forall_inv_tail Hkeys) as Hl.
  constructor; [now apply IH |].
  destruct Hhd as [| q l Hpq]; simpl; constructor.
  unfold id_le. pose proof (Forall_inv Hl) as Hq.
  now rewrite <- Hp, <- Hq.
Qed.

(** X21.  When the last entry of the local listing has arrived, the
    response holds exactly the collected entries, in ascending order of
    their ['id']. *)
Theorem listing_response_sorted (n : nat) (cameras : list dict) (w : world) :
  List.length cameras = n ->
  Forall has_id cameras ->
  exists out,
    check_finished_list n cameras w =
      (Ok out, extend w (listing_response out)) /\
    Sorted id_le out /\
    Permutation out cameras.
Proof.
  intros Hn Hid. exists (sorted_by_id cameras).
  split; [now apply check_finished_list_done |].
  split; [apply sorted_by_id_sorted | apply sorted_by_id_perm].
Qed.

Lemma listing_response_sorted_witness :
  let cameras := [[("id", VInt 5)]; [("id", VInt 1)]; [("id", VInt 3)]] in
  exists out,
    check_finished_list 3 cameras Example.world0 =
      (Ok out, extend Example.world0 (listing_response out)) /\
    Sorted id_le out /\
    Permutation out cameras.
Proof.
  intros cameras. apply listing_response_sorted.
  - reflexivity.
  - repeat constructor.
Defined.
